(** * Image_To_Text: the caption-to-annotation pipeline of [src/captioner.py]

    A shallow embedding of [AdvancedImageCaptioner] (tag extraction, scene
    context inference, description synthesis, topic recommendation and the
    orchestrating [generate_ai_optimized_description]) together with the
    module-level [image_to_caption], [get_captioner] and
    [image_to_ai_description], [list_images] of [src/utils.py] and
    [process_folder] of [main.py].

    Python values are modelled as follows.
    - [str] is a list of Unicode code points ([pystr]); source literals are
      written [py "..."].
    - [dict] is a [gmap] keyed by the (literal) key strings of the source.
    - [str.lower], the [\w] class of [re] and the iteration order of
      [list(set(...))] belong to the Python runtime; they are taken as
      interfaces ([Unicode], [SetOrder]) of which only the documented
      behaviour is assumed.
    - an exception is a value of [exn]; fallible code returns [result].
    - [print] is a call that may raise: the standard output belongs to
      the environment, which decides whether a line can be written. *)

From stdpp Require Import gmap strings list sorting.
From Stdlib Require Import ZArith NArith Ascii DecimalString.

Set Warnings "-register-all".

(** ** Python strings *)

Abbreviation pystr := (list N).

(** A source literal, character by character. *)
Definition py (s : string) : pystr :=
  (λ a, N_of_ascii a) <$> String.list_ascii_of_string s.
Arguments py : simpl never.

(** [str.lower] and [\w] restricted to ASCII. *)
Definition ascii_lower (c : N) : N :=
  if ((65 <=? c) && (c <=? 90))%N then (c + 32)%N else c.

Definition ascii_word (c : N) : bool :=
  (((48 <=? c) && (c <=? 57)) || ((65 <=? c) && (c <=? 90))
   || (c =? 95) || ((97 <=? c) && (c <=? 122)))%N.

Definition is_ascii (s : pystr) : Prop := Forall (λ c, (c < 128)%N) s.

(** The Unicode tables of the runtime: [str.lower] and the [\w] class of
    [re] on [str] patterns.  On ASCII text they are the familiar ones. *)
Class Unicode := {
  str_lower : pystr → pystr;
  is_word : N → bool;
  str_lower_ascii : ∀ s, is_ascii s → str_lower s = ascii_lower <$> s;
  is_word_ascii : ∀ c, (c < 128)%N → is_word c = ascii_word c
}.

(** [list(set(l))]: the distinct elements of [l] in the iteration order of
    the runtime's hash set, which Python leaves unspecified. *)
Class SetOrder := {
  list_of_set : list pystr → list pystr;
  list_of_set_perm : ∀ l, list_of_set l ≡ₚ remove_dups l
}.

(** [s.startswith(w)] *)
Fixpoint starts_with (s w : pystr) {struct w} : bool :=
  match w, s with
  | [], _ => true
  | a :: w', b :: s' => (a =? b)%N && starts_with s' w'
  | _ :: _, [] => false
  end.

(** [sub in s] on strings: substring test. *)
Fixpoint contains (s sub : pystr) : bool :=
  starts_with s sub ||
  match s with
  | [] => false
  | _ :: s' => contains s' sub
  end.

(** [sep.join(parts)] *)
Fixpoint join (sep : pystr) (parts : list pystr) : pystr :=
  match parts with
  | [] => []
  | [p] => p
  | p :: ps => p ++ sep ++ join sep ps
  end.

(** [a <= b] on strings: lexicographic on code points. *)
Fixpoint str_le (a b : pystr) : bool :=
  match a, b with
  | [], _ => true
  | _ :: _, [] => false
  | x :: a', y :: b' => (x <? y)%N || ((x =? y)%N && str_le a' b')
  end.

(** [sorted(l)] on a list of strings. *)
Fixpoint insert_sorted (x : pystr) (l : list pystr) : list pystr :=
  match l with
  | [] => [x]
  | y :: l' => if str_le x y then x :: l else y :: insert_sorted x l'
  end.

Definition sorted (l : list pystr) : list pystr := foldr insert_sorted [] l.

(** ** Regular expressions of the shape [\b(?:w1|...|wn)\b]

    Every pattern of [tag_patterns] is an alternation of non-empty literal
    words between two word-boundary assertions. *)
Module Re.
Section findall.
Context `{U : Unicode}.

Definition word_at (c : option N) : bool := from_option is_word false c.

(** [\b] between the character before and the character after (none at
    either end of the string). *)
Definition at_boundary (before after : option N) : bool :=
  xorb (word_at before) (word_at after).

(** The last character consumed once [w] has been matched after [prev]. *)
Definition last_of (prev : option N) (w : pystr) : option N :=
  match last w with Some c => Some c | None => prev end.

(** Does [\b w \b] match at the head of [text], [prev] being the
    character just before? *)
Definition match_alt (prev : option N) (text w : pystr) : bool :=
  starts_with text w
  && at_boundary prev (head text)
  && at_boundary (last_of prev w) (head (drop (length w) text)).

(** The alternation tries its branches from left to right. *)
Definition match_here (alts : list pystr) (prev : option N) (text : pystr)
  : option pystr :=
  List.find (match_alt prev text) alts.

(** The left-to-right scan: [skip] counts the characters still covered
    by the previous match, at which no new match may start. *)
Fixpoint scan (alts : list pystr) (prev : option N) (text : pystr)
    (skip : nat) : list pystr :=
  match text with
  | [] => []
  | c :: rest =>
      match skip with
      | S k => scan alts (Some c) rest k
      | O =>
          match match_here alts prev text with
          | Some w => w :: scan alts (Some c) rest (length w - 1)
          | None => scan alts (Some c) rest 0
          end
      end
  end.

(** [re.findall(pattern, text)] *)
Definition findall (alts : list pystr) (text : pystr) : list pystr :=
  scan alts None text 0.
End findall.
End Re.

(** ** Tag extraction *)

Definition tag_patterns : list (string * list pystr) :=
  [ ("people", py <$> ["person"; "people"; "man"; "woman"; "child"; "boy";
       "girl"; "baby"; "adult"]);
    ("actions", py <$> ["running"; "walking"; "sitting"; "standing";
       "jumping"; "dancing"; "playing"; "working"; "exercising"; "cooking";
       "reading"; "writing"; "driving"; "riding"; "swimming"; "flying";
       "climbing"; "lifting"; "pushing"; "pulling"; "throwing"; "catching";
       "kicking"; "hitting"]);
    ("sports", py <$> ["football"; "basketball"; "tennis"; "soccer";
       "baseball"; "golf"; "hockey"; "volleyball"; "boxing"; "wrestling";
       "cycling"; "skiing"; "surfing"; "skateboarding"; "yoga"; "gym";
       "fitness"; "workout"; "exercise"; "bench press"; "squats";
       "deadlift"]);
    ("locations", py <$> ["park"; "beach"; "street"; "road"; "building";
       "house"; "office"; "school"; "hospital"; "restaurant"; "store";
       "mall"; "gym"; "stadium"; "field"; "court"; "track"; "pool"; "lake";
       "river"; "mountain"; "forest"; "desert"; "city"; "town"; "village"]);
    ("objects", py <$> ["car"; "truck"; "bike"; "bicycle"; "motorcycle";
       "bus"; "train"; "plane"; "boat"; "chair"; "table"; "bed"; "computer";
       "phone"; "camera"; "book"; "ball"; "bottle"; "cup"; "plate"; "food";
       "tree"; "flower"; "animal"; "dog"; "cat"; "bird"]);
    ("weather", py <$> ["sunny"; "cloudy"; "rainy"; "snowy"; "foggy";
       "windy"; "storm"; "clear"; "bright"; "dark"; "day"; "night";
       "morning"; "afternoon"; "evening"; "sunset"; "sunrise"]);
    ("colors", py <$> ["red"; "blue"; "green"; "yellow"; "orange"; "purple";
       "pink"; "black"; "white"; "gray"; "grey"; "brown"; "silver"; "gold"]);
    ("emotions", py <$> ["happy"; "sad"; "angry"; "excited"; "surprised";
       "calm"; "peaceful"; "energetic"; "tired"; "focused"; "concentrated";
       "relaxed"]) ].

Section tags.
Context `{U : Unicode} `{O : SetOrder}.

(** The [for category, pattern in tag_patterns.items()] loop on the
    lower-cased caption. *)
Definition collect_tags (caption_lower : pystr) : list pystr :=
  foldl (λ tags '(category, pattern),
           tags ++ Re.findall pattern caption_lower)
        [] tag_patterns.

Definition extract_tags_from_caption (caption : pystr) : list pystr :=
  let caption_lower := str_lower caption in
  let tags := collect_tags caption_lower in
  list_of_set tags.
End tags.

(** ** Exceptions and results *)

(** A raised exception: its class name, whether the class derives from
    [Exception] (what [except Exception] catches), and [str(e)]. *)
Record exn := Exn {
  exn_name : string;
  exn_is_exception : bool;
  exn_str : pystr
}.

Inductive result (A : Type) : Type :=
| Ok (a : A)
| Raise (e : exn).
Arguments Ok {A} a.
Arguments Raise {A} e.

#[global] Instance result_ret : MRet result := λ A a, Ok a.
#[global] Instance result_bind : MBind result := λ A B f r,
  match r with
  | Ok a => f a
  | Raise e => Raise e
  end.

(** [KeyError(key)]: [str] of it is the [repr] of the key. *)
Definition KeyError (key : string) : exn :=
  Exn "KeyError" true (py "'" ++ py key ++ py "'").
Definition IndexError (msg : string) : exn := Exn "IndexError" true (py msg).
Definition ZeroDivisionError : exn :=
  Exn "ZeroDivisionError" true (py "division by zero").
Definition TypeError (msg : string) : exn := Exn "TypeError" true (py msg).
Definition AttributeError (msg : string) : exn :=
  Exn "AttributeError" true (py msg).

(** [context[key]] *)
Definition getitem (context : gmap string pystr) (key : string)
  : result pystr :=
  match context !! key with
  | Some v => Ok v
  | None => Raise (KeyError key)
  end.

(** ** Scene context inference *)

Section context.
Context `{U : Unicode}.

(** [any(word in caption_lower for word in words)] *)
Definition any_in (words : list pystr) (caption_lower : pystr) : bool :=
  existsb (λ word, contains caption_lower word) words.

Definition analyze_scene_context (caption : pystr) : gmap string pystr :=
  let caption_lower := str_lower caption in
  let context : gmap string pystr :=
    {[ "setting" := py "unknown";
       "time_of_day" := py "unknown";
       "activity_level" := py "unknown";
       "social_context" := py "unknown";
       "mood" := py "neutral" ]} in
  (* Determine setting *)
  let context :=
    if any_in (py <$> ["indoor"; "inside"; "room"; "office"; "house";
                       "building"]) caption_lower
    then <["setting" := py "indoor"]> context
    else if any_in (py <$> ["outdoor"; "outside"; "park"; "street";
                            "beach"; "field"; "forest"]) caption_lower
    then <["setting" := py "outdoor"]> context
    else context in
  (* Determine time of day *)
  let context :=
    if any_in (py <$> ["night"; "evening"; "dark"]) caption_lower
    then <["time_of_day" := py "night"]> context
    else if any_in (py <$> ["morning"; "sunrise"]) caption_lower
    then <["time_of_day" := py "morning"]> context
    else if any_in (py <$> ["afternoon"; "day"; "sunny"; "bright"])
              caption_lower
    then <["time_of_day" := py "day"]> context
    else if any_in (py <$> ["sunset"; "dusk"]) caption_lower
    then <["time_of_day" := py "evening"]> context
    else context in
  (* Determine activity level *)
  let context :=
    if any_in (py <$> ["running"; "jumping"; "dancing"; "playing";
                       "exercising"; "working out"]) caption_lower
    then <["activity_level" := py "high"]> context
    else if any_in (py <$> ["walking"; "standing"; "working"])
              caption_lower
    then <["activity_level" := py "medium"]> context
    else if any_in (py <$> ["sitting"; "lying"; "sleeping"; "resting"])
              caption_lower
    then <["activity_level" := py "low"]> context
    else context in
  (* Determine social context *)
  let context :=
    if any_in (py <$> ["group"; "people"; "crowd"; "team"; "family"])
         caption_lower
    then <["social_context" := py "group"]> context
    else if any_in (py <$> ["person"; "man"; "woman"; "individual"])
              caption_lower
    then <["social_context" := py "individual"]> context
    else context in
  (* Determine mood *)
  let context :=
    if any_in (py <$> ["smiling"; "happy"; "celebrating"; "laughing"])
         caption_lower
    then <["mood" := py "positive"]> context
    else if any_in (py <$> ["focused"; "concentrated"; "serious";
                            "determined"]) caption_lower
    then <["mood" := py "focused"]> context
    else if any_in (py <$> ["relaxed"; "calm"; "peaceful"]) caption_lower
    then <["mood" := py "calm"]> context
    else context in
  context.
End context.

(** ** Description synthesis *)

(** The list [description_parts] as it stands before the final join. *)
Definition description_parts (caption : pystr) (context : gmap string pystr)
    (tags : list pystr) : result (list pystr) :=
  let description_parts := [caption] in
  (* Add context information *)
  setting ← getitem context "setting";
  let description_parts :=
    if decide (setting ≠ py "unknown")
    then description_parts
           ++ [py "This appears to be an " ++ setting ++ py " scene."]
    else description_parts in
  time_of_day ← getitem context "time_of_day";
  let description_parts :=
    if decide (time_of_day ≠ py "unknown")
    then description_parts
           ++ [py "The time appears to be " ++ time_of_day ++ py "."]
    else description_parts in
  activity_level ← getitem context "activity_level";
  let description_parts :=
    if decide (activity_level ≠ py "unknown")
    then description_parts
           ++ [py "The activity level in the image is " ++ activity_level
               ++ py "."]
    else description_parts in
  social_context ← getitem context "social_context";
  let description_parts :=
    if decide (social_context ≠ py "unknown")
    then if decide (social_context = py "group")
         then description_parts
                ++ [py "This involves multiple people or a group setting."]
         else description_parts
                ++ [py "This focuses on an individual person."]
    else description_parts in
  (* Add relevant tags context *)
  let description_parts :=
    match tags with
    | [] => description_parts
    | _ :: _ =>
        let key_tags :=
          filter (λ tag, tag ∉ py <$> ["person"; "people"; "man"; "woman"])
                 tags in
        match key_tags with
        | [] => description_parts
        | _ :: _ =>
            description_parts
              ++ [py "Key elements include: "
                  ++ join (py ", ") (take 5 key_tags) ++ py "."]
        end
    end in
  mret description_parts.

Definition create_ai_description (caption : pystr)
    (context : gmap string pystr) (tags : list pystr) : result pystr :=
  parts ← description_parts caption context tags;
  mret (join (py " ") parts).

(** ** Topic recommendation *)

Section topics.
Context `{O : SetOrder}.

(** [any(tag in tags for tag in wanted)] *)
Definition any_tag (wanted tags : list pystr) : bool :=
  existsb (λ tag, bool_decide (tag ∈ tags)) wanted.

Definition generate_related_topics (tags : list pystr)
    (context : gmap string pystr) : result (list pystr) :=
  let topics := [] in
  (* Add topics based on tags *)
  let topics :=
    if any_tag (py <$> ["running"; "exercise"; "gym"; "fitness"]) tags
    then topics ++ (py <$> ["fitness"; "health"; "exercise routines";
                            "nutrition"; "wellness"])
    else topics in
  let topics :=
    if any_tag (py <$> ["beach"; "outdoor"; "park"]) tags
    then topics ++ (py <$> ["outdoor activities"; "nature"; "travel";
                            "recreation"])
    else topics in
  let topics :=
    if any_tag (py <$> ["sports"; "basketball"; "football"; "tennis"]) tags
    then topics ++ (py <$> ["sports"; "athletics"; "competition";
                            "team activities"])
    else topics in
  (* Add context-based topics *)
  setting ← getitem context "setting";
  let topics :=
    if decide (setting = py "outdoor")
    then topics ++ (py <$> ["outdoor lifestyle"; "fresh air benefits"])
    else topics in
  activity_level ← getitem context "activity_level";
  let topics :=
    if decide (activity_level = py "high")
    then topics ++ (py <$> ["active lifestyle"; "energy"; "motivation"])
    else topics in
  (* Remove duplicates and return unique topics *)
  mret (take 5 (list_of_set topics)).
End topics.

(** ** Python values of the annotation record *)

(** The two floats of the record are kept symbolic: a literal of the
    source, or [round(w / h, 2)]. *)
Inductive pyfloat :=
| FLit (literal : string)
| FRound2 (w h : Z).

Inductive pyval :=
| VStr (s : pystr)
| VInt (z : Z)
| VFloat (f : pyfloat)
| VList (l : list pyval)
| VDict (d : gmap string pyval).

Definition str_list (l : list pystr) : pyval := VList (VStr <$> l).
Definition str_dict (d : gmap string pystr) : pyval := VDict (VStr <$> d).

(** ** The orchestrator *)

(** The methods of [self] that the orchestrator may invoke. *)
Inductive call :=
| ExtractTags
| AnalyzeSceneContext
| CreateAiDescription
| GenerateRelatedTopics.

(** A computation that may raise and that records, in program order, the
    pipeline methods it invokes; the record survives a raise. *)
Definition traced (A : Type) : Type := list call → result A * list call.

#[global] Instance traced_ret : MRet traced := λ A a log, (Ok a, log).
#[global] Instance traced_bind : MBind traced := λ A B f m log,
  match m log with
  | (Ok a, log') => f a log'
  | (Raise e, log') => (Raise e, log')
  end.

(** An external call: it may raise but invokes no pipeline method. *)
Definition extern {A} (r : result A) : traced A := λ log, (r, log).

(** [self.method(...)], recorded. *)
Definition invoke {A} (c : call) (r : result A) : traced A :=
  λ log, (r, log ++ [c]).

(** [try: body / except Exception as e: handler(e)] *)
Definition try_except {A} (body : traced A) (handler : exn → traced A)
  : traced A :=
  λ log,
    match body log with
    | (Ok a, log') => (Ok a, log')
    | (Raise e, log') =>
        if exn_is_exception e then handler e log' else (Raise e, log')
    end.

(** The image returned by [Image.open(path).convert('RGB')]. *)
Record image := Image {
  image_size : Z * Z;
  image_format : option pystr
}.

(** The two parameter sets passed to [self.model.generate]:
    [max_length=50, num_beams=5] and
    [max_length=75, num_beams=3, temperature=0.7, do_sample=True]. *)
Inductive gen_config := StandardConfig | DetailedConfig.

(** The collaborators of the orchestrator: PIL, the BLIP processor and
    model held by [self], [os.path], the clock and the standard output.
    [print line] is the builtin writing [line] to [sys.stdout]; it raises
    when the stream cannot take the line ([UnicodeEncodeError] under a
    strict encoding, [ValueError] or [OSError] on a closed stream).  What
    has been printed is not recorded. *)
Record World (tensor : Type) := {
  image_open : pystr → result image;
  processor : image → result tensor;
  generate : gen_config → tensor → result tensor;
  decode : tensor → result pystr;
  device : pystr;
  basename : pystr → pystr;
  now_isoformat : pystr;
  print : pystr → result unit
}.
Arguments image_open {tensor}.
Arguments processor {tensor}.
Arguments generate {tensor}.
Arguments decode {tensor}.
Arguments device {tensor}.
Arguments basename {tensor}.
Arguments now_isoformat {tensor}.
Arguments print {tensor}.

(** [round(width / height, 2)] *)
Definition aspect_ratio (width height : Z) : result pyval :=
  if (height =? 0)%Z then Raise ZeroDivisionError
  else Ok (VFloat (FRound2 width height)).

(** [x or default] on an optional string: [None] and [""] are falsy. *)
Definition or_default (x : option pystr) (default : pystr) : pystr :=
  match x with
  | Some (c :: s) => c :: s
  | _ => default
  end.

Definition caption_entry (type : string) (text : pystr) (confidence : string)
  : pyval :=
  VDict {[ "type" := VStr (py type);
           "text" := VStr text;
           "confidence" := VFloat (FLit confidence) ]}.

Section orchestrator.
Context `{U : Unicode} `{O : SetOrder} {tensor : Type} (W : World tensor).

(** The body of the [try] block. *)
Definition process_image (image_path : pystr)
  : traced (gmap string pyval) :=
  (* Load and process the image *)
  image ← extern (image_open W image_path);
  let '(width, height) := image_size image in
  inputs ← extern (processor W image);
  (* Standard caption *)
  out ← extern (generate W StandardConfig inputs);
  standard_caption ← extern (decode W out);
  let captions := [caption_entry "standard" standard_caption "0.85"] in
  (* Detailed caption with higher max length *)
  out ← extern (generate W DetailedConfig inputs);
  detailed_caption ← extern (decode W out);
  let captions :=
    captions ++ [caption_entry "detailed" detailed_caption "0.80"] in
  (* Use the standard caption as primary *)
  let primary_caption := standard_caption in
  (* Extract tags and analyze context *)
  tags ← invoke ExtractTags
           (Ok (extract_tags_from_caption primary_caption));
  scene_context ← invoke AnalyzeSceneContext
                    (Ok (analyze_scene_context primary_caption));
  (* Generate AI-optimized description *)
  ai_description ← invoke CreateAiDescription
      (create_ai_description primary_caption scene_context tags);
  (* Create comprehensive result *)
  ratio ← extern (aspect_ratio width height);
  related_topics ← invoke GenerateRelatedTopics
      (generate_related_topics tags scene_context);
  mret ({[
    "filename" := VStr (basename W image_path);
    "timestamp" := VStr (now_isoformat W);
    "image_properties" := VDict {[
        "width" := VInt width;
        "height" := VInt height;
        "aspect_ratio" := ratio;
        "format" := VStr (or_default (image_format image) (py "JPEG")) ]};
    "ai_description" := VStr ai_description;
    "captions" := VList captions;
    "tags" := str_list (sorted tags);
    "scene_context" := str_dict scene_context;
    "related_topics" := str_list related_topics;
    "metadata" := VDict {[
        "model_used" := VStr (py "BLIP-base");
        "processing_device" := VStr (device W);
        "analysis_version" := VStr (py "1.0") ]}
  ]} : gmap string pyval).

(** The record built by the [except] branch. *)
Definition error_record (image_path : pystr) (e : exn)
  : gmap string pyval :=
  {[ "filename" := VStr (basename W image_path);
     "timestamp" := VStr (now_isoformat W);
     "error" := VStr (exn_str e);
     "ai_description" := VStr (py
       "Unable to process this image. Please try again or use a different image.");
     "captions" := VList [];
     "tags" := VList [];
     "scene_context" := VDict ∅;
     "related_topics" :=
       str_list (py <$> ["image analysis"; "technical support"]) ]}.

(** [f"Error processing {image_path}: {str(e)}"] *)
Definition error_line (image_path : pystr) (e : exn) : pystr :=
  py "Error processing " ++ image_path ++ py ": " ++ exn_str e.

(** The [except] block: the line is printed, then the record is returned;
    an exception raised by [print] leaves the function. *)
Definition handle_error (image_path : pystr) (e : exn)
  : traced (gmap string pyval) :=
  _ ← extern (print W (error_line image_path e));
  mret (error_record image_path e).

Definition generate_ai_optimized_description (image_path : pystr)
  : traced (gmap string pyval) :=
  try_except (process_image image_path) (handle_error image_path).

(** *** [image_to_caption] *)

(** [d.get(key, default)] on a record. *)
Definition dict_get (d : gmap string pyval) (key : string)
    (default : pyval) : pyval :=
  match d !! key with
  | Some v => v
  | None => default
  end.

(** [v[0]] *)
Definition first_item (v : pyval) : result pyval :=
  match v with
  | VList (x :: _) => Ok x
  | VList [] => Raise (IndexError "list index out of range")
  | VStr (c :: _) => Ok (VStr [c])
  | VStr [] => Raise (IndexError "string index out of range")
  | VDict _ => Raise (Exn "KeyError" true (py "0"))
  | VInt _ => Raise (TypeError "'int' object is not subscriptable")
  | VFloat _ => Raise (TypeError "'float' object is not subscriptable")
  end.

(** [v.get(key, default)] on an arbitrary value. *)
Definition value_get (v : pyval) (key : string) (default : pyval)
  : result pyval :=
  match v with
  | VDict d => Ok (dict_get d key default)
  | _ => Raise (AttributeError "object has no attribute 'get'")
  end.

Definition fallback_caption : pyval :=
  VStr (py "Unable to generate caption").

(** [result.get("captions", [{}])[0].get("text", ...)] *)
Definition first_caption_text (res : gmap string pyval)
  : result pyval :=
  first ← first_item (dict_get res "captions" (VList [VDict ∅]));
  value_get first "text" fallback_caption.

(** [image_to_caption], for the captioner that [get_captioner()] hands
    out. *)
Definition image_to_caption (image_path : pystr) : traced pyval :=
  res ← generate_ai_optimized_description image_path;
  extern (first_caption_text res).
End orchestrator.

(** ** Tables and predicates used by the statements *)

(** The five [if]/[elif] chains of [analyze_scene_context] as data: for
    each field its default and its keyword groups with the value each one
    assigns, in the order in which the source tests them. *)
Definition setting_groups : list (list pystr * pystr) :=
  [ (py <$> ["indoor"; "inside"; "room"; "office"; "house"; "building"],
     py "indoor");
    (py <$> ["outdoor"; "outside"; "park"; "street"; "beach"; "field";
             "forest"], py "outdoor") ].

Definition time_groups : list (list pystr * pystr) :=
  [ (py <$> ["night"; "evening"; "dark"], py "night");
    (py <$> ["morning"; "sunrise"], py "morning");
    (py <$> ["afternoon"; "day"; "sunny"; "bright"], py "day");
    (py <$> ["sunset"; "dusk"], py "evening") ].

Definition activity_groups : list (list pystr * pystr) :=
  [ (py <$> ["running"; "jumping"; "dancing"; "playing"; "exercising";
             "working out"], py "high");
    (py <$> ["walking"; "standing"; "working"], py "medium");
    (py <$> ["sitting"; "lying"; "sleeping"; "resting"], py "low") ].

Definition social_groups : list (list pystr * pystr) :=
  [ (py <$> ["group"; "people"; "crowd"; "team"; "family"], py "group");
    (py <$> ["person"; "man"; "woman"; "individual"], py "individual") ].

Definition mood_groups : list (list pystr * pystr) :=
  [ (py <$> ["smiling"; "happy"; "celebrating"; "laughing"], py "positive");
    (py <$> ["focused"; "concentrated"; "serious"; "determined"],
     py "focused");
    (py <$> ["relaxed"; "calm"; "peaceful"], py "calm") ].

Definition scene_fields
  : list (string * pystr * list (list pystr * pystr)) :=
  [ ("setting", py "unknown", setting_groups);
    ("time_of_day", py "unknown", time_groups);
    ("activity_level", py "unknown", activity_groups);
    ("social_context", py "unknown", social_groups);
    ("mood", py "neutral", mood_groups) ].

(** The context as initialised, before any chain runs. *)
Definition default_context : gmap string pystr :=
  {[ "setting" := py "unknown";
     "time_of_day" := py "unknown";
     "activity_level" := py "unknown";
     "social_context" := py "unknown";
     "mood" := py "neutral" ]}.

(** The value of the first group accepted by [matches], else the default. *)
Definition first_group (matches : list pystr → bool)
    (groups : list (list pystr * pystr)) (default : pystr) : pystr :=
  match List.find (λ g, matches g.1) groups with
  | Some g => g.2
  | None => default
  end.

(** One chain applied to a context. *)
Definition assign_first (matches : list pystr → bool) (field : string)
    (groups : list (list pystr * pystr)) (context : gmap string pystr)
  : gmap string pystr :=
  match List.find (λ g, matches g.1) groups with
  | Some g => <[field := g.2]> context
  | None => context
  end.

(** *** The reading of the specification

    The specification describes group matching through the caption's
    words, and lists the time-of-day values as morning, day, evening,
    night. *)

(** [str.isspace] on ASCII. *)
Definition ascii_space (c : N) : bool :=
  (((9 <=? c) && (c <=? 13)) || (c =? 32))%N.

(** The words of a text: its maximal runs of non-blank characters. *)
Fixpoint split_words (cur : pystr) (s : pystr) : list pystr :=
  match s with
  | [] => match cur with [] => [] | _ => [cur] end
  | c :: s' =>
      if ascii_space c
      then match cur with
           | [] => split_words [] s'
           | _ => cur :: split_words [] s'
           end
      else split_words (cur ++ [c]) s'
  end.

Definition caption_words (caption_lower : pystr) : list pystr :=
  split_words [] caption_lower.

(** A keyword set meets the set of the caption's words. *)
Definition words_intersect (keywords : list pystr) (caption_lower : pystr)
  : bool :=
  existsb (λ k, bool_decide (k ∈ caption_words caption_lower)) keywords.

(** The time-of-day groups in the order morning, day, evening, night. *)
Definition time_groups_as_enumerated : list (list pystr * pystr) :=
  [ (py <$> ["morning"; "sunrise"], py "morning");
    (py <$> ["afternoon"; "day"; "sunny"; "bright"], py "day");
    (py <$> ["sunset"; "dusk"], py "evening");
    (py <$> ["night"; "evening"; "dark"], py "night") ].

(** The enumerated domain of each field. *)
Definition field_domains : list (string * list pystr) :=
  [ ("setting", py <$> ["indoor"; "outdoor"; "unknown"]);
    ("time_of_day", py <$> ["morning"; "day"; "evening"; "night";
                            "unknown"]);
    ("activity_level", py <$> ["high"; "medium"; "low"; "unknown"]);
    ("social_context", py <$> ["group"; "individual"; "unknown"]);
    ("mood", py <$> ["positive"; "focused"; "calm"; "neutral"]) ].

(** All five fields present, and only those, each within its domain. *)
Definition scene_context_wf (context : gmap string pystr) : Prop :=
  dom context = list_to_set (fst <$> field_domains) ∧
  ∀ field values, (field, values) ∈ field_domains →
    ∃ v, context !! field = Some v ∧ v ∈ values.

(** How many of the five fields differ from their default. *)
Definition nondefault_fields (context : gmap string pystr) : nat :=
  length (filter (λ '(field, default, _), context !! field ≠ Some default)
                 scene_fields).

(** The sentence a field contributes to the description, if any. *)
Definition field_sentence (field : string) (value : pystr) : list pystr :=
  if decide (value = py "unknown") then []
  else if decide (field = "setting")
       then [py "This appears to be an " ++ value ++ py " scene."]
  else if decide (field = "time_of_day")
       then [py "The time appears to be " ++ value ++ py "."]
  else if decide (field = "activity_level")
       then [py "The activity level in the image is " ++ value ++ py "."]
  else if decide (field = "social_context")
       then if decide (value = py "group")
            then [py "This involves multiple people or a group setting."]
            else [py "This focuses on an individual person."]
  else [].

(** The sentence the tags contribute, if any. *)
Definition tags_sentence (tags : list pystr) : list pystr :=
  match filter (λ tag, tag ∉ py <$> ["person"; "people"; "man"; "woman"])
               tags with
  | [] => []
  | key_tags =>
      [py "Key elements include: " ++ join (py ", ") (take 5 key_tags)
       ++ py "."]
  end.

(** An occurrence of [t] in [text] with a word boundary on either side. *)
Definition word_bounded_in `{U : Unicode} (t text : pystr) : Prop :=
  ∃ pre post,
    text = pre ++ t ++ post ∧
    Re.at_boundary (last pre) (head (t ++ post)) = true ∧
    Re.at_boundary (last (pre ++ t)) (head post) = true.

(** The vocabulary of the eight tag categories. *)
Definition vocabulary : list pystr := mjoin (snd <$> tag_patterns).

(** The upstream part of the orchestrator on its own: image loading,
    preprocessing and the two caption generations. *)
Definition upstream {tensor} (W : World tensor) (image_path : pystr)
  : result (image * pystr * pystr) :=
  image ← image_open W image_path;
  inputs ← processor W image;
  out ← generate W StandardConfig inputs;
  standard_caption ← decode W out;
  out ← generate W DetailedConfig inputs;
  detailed_caption ← decode W out;
  mret (image, standard_caption, detailed_caption).

(** A character, if any, within ASCII. *)
Definition ascii_char (c : option N) : Prop := ∀ x, c = Some x → (x < 128)%N.

(** ** A reference runtime

    ASCII-only tables, and a set that iterates in insertion order or in
    the reverse of it. *)

Definition ascii_unicode : Unicode :=
  {| str_lower := fmap ascii_lower;
     is_word := ascii_word;
     str_lower_ascii := λ s _, eq_refl;
     is_word_ascii := λ c _, eq_refl |}.

Definition insertion_order : SetOrder :=
  {| list_of_set := remove_dups;
     list_of_set_perm := λ l, reflexivity (remove_dups l) |}.

Definition reverse_order : SetOrder :=
  {| list_of_set := λ l, reverse (remove_dups l);
     list_of_set_perm := λ l, reverse_Permutation (remove_dups l) |}.

(** [posixpath.basename]: what follows the last ["/"]. *)
Definition posix_basename (p : pystr) : pystr :=
  foldl (λ acc c, if (c =? 47)%N then [] else acc ++ [c]) [] p.

(** A world in which the image cannot be opened, as in the example of an
    upstream error ["file not found"] for ["x.jpg"]. *)
Definition missing_file_world : World unit :=
  {| image_open := λ _, Raise (Exn "FileNotFoundError" true
                                   (py "file not found"));
     processor := λ _, Ok ();
     generate := λ _ _, Ok ();
     decode := λ _, Ok (py "a man running in a park");
     device := py "cpu";
     basename := posix_basename;
     now_isoformat := py "2024-01-01T00:00:00";
     print := λ _, Ok () |}.

(** The same world with [sys.stdout] closed: every [print] raises
    [ValueError]. *)
Definition closed_stdout_world : World unit :=
  {| image_open := image_open missing_file_world;
     processor := processor missing_file_world;
     generate := generate missing_file_world;
     decode := decode missing_file_world;
     device := device missing_file_world;
     basename := basename missing_file_world;
     now_isoformat := now_isoformat missing_file_world;
     print := λ _, Raise (Exn "ValueError" true
                              (py "I/O operation on closed file.")) |}.

(** A world in which everything succeeds. *)
Definition working_world (caption : pystr) : World unit :=
  {| image_open := λ _, Ok (Image (640%Z, 480%Z) None);
     processor := λ _, Ok ();
     generate := λ _ _, Ok ();
     decode := λ _, Ok caption;
     device := py "cpu";
     basename := posix_basename;
     now_isoformat := py "2024-01-01T00:00:00";
     print := λ _, Ok () |}.

(** A successful run on a park scene, and the record it returns. *)
Definition park_run : result (gmap string pyval) * list call :=
  generate_ai_optimized_description (U := ascii_unicode)
    (O := insertion_order) (working_world (py "a man running in a park"))
    (py "data/park.jpg") [].

Definition park_record : gmap string pyval :=
  match park_run.1 with
  | Ok record => record
  | Raise _ => ∅
  end.

(** The caption of the basketball example and the seven topics it
    collects. *)
Definition basketball_caption : pystr :=
  py "a group of people playing basketball at night".

Definition basketball_topics : list pystr :=
  py <$> ["sports"; "athletics"; "competition"; "team activities";
          "active lifestyle"; "energy"; "motivation"].

(** ** Further tables used by the statements *)

(** The keys [create_ai_description] reads, in the order it reads them. *)
Definition description_keys : list string :=
  ["setting"; "time_of_day"; "activity_level"; "social_context"].

(** The keys [generate_related_topics] reads, in the order it reads them. *)
Definition topic_keys : list string := ["setting"; "activity_level"].

(** The first of [keys] that [context] lacks. *)
Definition first_missing (context : gmap string pystr) (keys : list string)
  : option string :=
  List.find (λ k, bool_decide (context !! k = None)) keys.

(** The terms left out of the key-elements sentence. *)
Definition person_terms : list pystr :=
  py <$> ["person"; "people"; "man"; "woman"].

(** The five rules of [generate_related_topics]: whether each one fires,
    and the topics it contributes. *)
Definition topic_rules (tags : list pystr) (setting activity_level : pystr)
  : list (bool * list pystr) :=
  [ (any_tag (py <$> ["running"; "exercise"; "gym"; "fitness"]) tags,
     py <$> ["fitness"; "health"; "exercise routines"; "nutrition";
             "wellness"]);
    (any_tag (py <$> ["beach"; "outdoor"; "park"]) tags,
     py <$> ["outdoor activities"; "nature"; "travel"; "recreation"]);
    (any_tag (py <$> ["sports"; "basketball"; "football"; "tennis"]) tags,
     py <$> ["sports"; "athletics"; "competition"; "team activities"]);
    (bool_decide (setting = py "outdoor"),
     py <$> ["outdoor lifestyle"; "fresh air benefits"]);
    (bool_decide (activity_level = py "high"),
     py <$> ["active lifestyle"; "energy"; "motivation"]) ].

(** The topics of the rules that fire, in rule order. *)
Definition triggered_topics (tags : list pystr)
    (setting activity_level : pystr) : list pystr :=
  topic_rules tags setting activity_level
    ≫= λ '(fires, topics), if fires : bool then topics else [].

(** ** Alternations whose matches cannot hide one another *)

(** No alternative is a proper prefix of another one. *)
Definition prefix_free (alts : list pystr) : bool :=
  forallb (λ w, forallb (λ t, negb (starts_with t w)
                              || (length t =? length w)) alts) alts.

(** Wherever a word boundary falls inside an alternative, the character
    after it starts no alternative. *)
Definition boundary_safe_at (alts : list pystr) (w : pystr) (i : nat)
  : bool :=
  match w !! i, w !! S i with
  | Some p, Some x =>
      negb (xorb (ascii_word p) (ascii_word x))
      || forallb (λ t, negb (bool_decide (head t = Some x))) alts
  | _, _ => true
  end.

Definition boundary_safe (alts : list pystr) : bool :=
  forallb (λ w, forallb (boundary_safe_at alts w) (seq 0 (length w))) alts.

(** Non-empty ASCII alternatives. *)
Definition ascii_words (alts : list pystr) : bool :=
  forallb (λ w, negb (bool_decide (w = []))
                && forallb (λ c, (c <? 128)%N) w) alts.

Definition separated (alts : list pystr) : bool :=
  ascii_words alts && prefix_free alts && boundary_safe alts.

(** Where the scan stands: either free to match, or inside a match of one
    of [alts], whose remaining characters are the next [skip] ones. *)
Definition inside_match (alts : list pystr) (prev : option N)
    (text : pystr) (skip : nat) : Prop :=
  skip = 0 ∨
  ∃ w consumed p,
    w ∈ alts ∧ w = consumed ++ take skip text ∧
    last consumed = Some p ∧ prev = Some p.

(** ** The record of a successful run *)

(** The four pipeline methods, in the order the orchestrator invokes
    them. *)
Definition pipeline_calls : list call :=
  [ExtractTags; AnalyzeSceneContext; CreateAiDescription;
   GenerateRelatedTopics].

(** The record assembled at the end of the [try] block from the image, the
    two captions and the outputs of the pipeline. *)
Definition full_record `{U : Unicode} `{O : SetOrder} {tensor : Type}
    (W : World tensor) (image_path : pystr) (img : image)
    (standard detailed description : pystr) (topics : list pystr)
  : gmap string pyval :=
  {[ "filename" := VStr (basename W image_path);
     "timestamp" := VStr (now_isoformat W);
     "image_properties" := VDict {[
         "width" := VInt (image_size img).1;
         "height" := VInt (image_size img).2;
         "aspect_ratio" :=
           VFloat (FRound2 (image_size img).1 (image_size img).2);
         "format" := VStr (or_default (image_format img) (py "JPEG")) ]};
     "ai_description" := VStr description;
     "captions" := VList [caption_entry "standard" standard "0.85";
                          caption_entry "detailed" detailed "0.80"];
     "tags" := str_list (sorted (extract_tags_from_caption standard));
     "scene_context" := str_dict (analyze_scene_context standard);
     "related_topics" := str_list topics;
     "metadata" := VDict {[
         "model_used" := VStr (py "BLIP-base");
         "processing_device" := VStr (device W);
         "analysis_version" := VStr (py "1.0") ]} ]}.

(** Ascending order on strings. *)
Definition str_ascending (l : list pystr) : Prop :=
  Sorted (λ a b, str_le a b = true) l.

(** ** [utils.py] and [main.py] *)

(** [s.endswith(w)] *)
Definition ends_with (s w : pystr) : bool :=
  starts_with (reverse s) (reverse w).

(** [s.replace(old, new)] for a non-empty [old]: the occurrences are
    replaced from left to right, [skip] counting the characters of the
    occurrence just replaced. *)
Fixpoint replace_from (s old new : pystr) (skip : nat) : pystr :=
  match s with
  | [] => []
  | c :: s' =>
      match skip with
      | S k => replace_from s' old new k
      | O =>
          if starts_with s old
          then new ++ replace_from s' old new (length old - 1)
          else c :: replace_from s' old new 0
      end
  end.

Definition str_replace (s old new : pystr) : pystr :=
  replace_from s old new 0.

(** The file system as the two scripts use it: [os.listdir],
    [os.path.join], [os.path.dirname], [os.path.basename],
    [os.makedirs(d, exist_ok=True)] and writing a value as JSON
    ([open(path, "w")] then [json.dump]). *)
Record FileSystem := {
  listdir : pystr → result (list pystr);
  path_join : pystr → pystr → pystr;
  path_dirname : pystr → pystr;
  path_basename : pystr → pystr;
  makedirs : pystr → result unit;
  dump : pystr → pyval → result unit
}.

(** The standard output as [main.py] uses it: [print_line line] is
    [print(line)], which raises when the stream cannot take the line
    ([UnicodeEncodeError], or [ValueError] and [OSError] on a closed
    stream), and [str_of v] is the text an f-string gives to a value that
    is not a string.  What has been printed is not recorded.  The [print]
    of the captioner's [except] block goes through the world of the
    call. *)
Record Console := {
  print_line : pystr → result unit;
  str_of : pyval → pystr
}.

(** [posixpath.join] of two components. *)
Definition posix_join (a b : pystr) : pystr :=
  if starts_with b (py "/") then b
  else if bool_decide (a = []) || ends_with a (py "/") then a ++ b
  else a ++ py "/" ++ b.

Definition valid_exts : list pystr := py <$> [".png"; ".jpg"; ".jpeg"].

(** [f.lower().endswith(valid_exts)] *)
Definition is_image_name `{U : Unicode} (f : pystr) : bool :=
  existsb (ends_with (str_lower f)) valid_exts.

Definition list_images `{U : Unicode} (FS : FileSystem) (folder : pystr)
  : result (list pystr) :=
  names ← listdir FS folder;
  mret (path_join FS folder <$> List.filter is_image_name names).

(** The state of the process: whether the global [_captioner] is set, the
    directories made and the files written so far, in order. *)
Record process_state := ProcessState {
  captioner_loaded : bool;
  dirs : list pystr;
  files : list (pystr * pyval)
}.

(** A computation of the process: it may raise, and what it did before
    raising stays done. *)
Definition io (A : Type) : Type := process_state → result A * process_state.

#[global] Instance io_ret : MRet io := λ A a st, (Ok a, st).
#[global] Instance io_bind : MBind io := λ A B f m st,
  match m st with
  | (Ok a, st') => f a st'
  | (Raise e, st') => (Raise e, st')
  end.

(** A computation that leaves the state alone. *)
Definition pure_io {A} (r : result A) : io A := λ st, (r, st).

(** [get_captioner()]: the captioner is constructed at the first call,
    [load] being the outcome of [AdvancedImageCaptioner()] (loading the
    model and printing the two lines of [__init__]); when the construction
    raises the global stays unset. *)
Definition get_captioner (load : result unit) : io unit := λ st,
  if captioner_loaded st then (Ok (), st)
  else match load with
       | Ok _ => (Ok (), ProcessState true (dirs st) (files st))
       | Raise e => (Raise e, st)
       end.

(** [os.makedirs(path, exist_ok=True)]; a directory that has been made is
    recorded. *)
Definition make_dirs (FS : FileSystem) (path : pystr) : io unit := λ st,
  match makedirs FS path with
  | Ok _ => (Ok (), ProcessState (captioner_loaded st) (dirs st ++ [path])
                                 (files st))
  | Raise e => (Raise e, st)
  end.

(** [with open(path, "w", ...) as f: json.dump(value, f, ...)]; a completed
    write is recorded. *)
Definition write_json (FS : FileSystem) (path : pystr) (value : pyval)
  : io unit := λ st,
  match dump FS path value with
  | Ok _ => (Ok (), ProcessState (captioner_loaded st) (dirs st)
                                 (files st ++ [(path, value)]))
  | Raise e => (Raise e, st)
  end.

(** [record[key]] *)
Definition record_getitem (record : gmap string pyval) (key : string)
  : result pyval :=
  match record !! key with
  | Some v => Ok v
  | None => Raise (KeyError key)
  end.

(** [record.get("captions", [{}])[0].get("text", default)] *)
Definition first_text (record : gmap string pyval) (default : pyval)
  : result pyval :=
  first ← first_item (dict_get record "captions" (VList [VDict ∅]));
  value_get first "text" default.

(** One entry of the simple format. *)
Definition simple_entry (img_data : gmap string pyval) : result pyval :=
  filename ← record_getitem img_data "filename";
  caption ← first_text img_data (VStr (py "No caption available"));
  mret (VDict {[ "filename" := filename; "caption" := caption ]}).

(** [for x in l: acc.append(f(x))], stopping at the first raise. *)
Fixpoint for_each {A B} (f : A → result B) (l : list A) : result (list B) :=
  match l with
  | [] => Ok []
  | x :: l' => y ← f x; ys ← for_each f l'; mret (y :: ys)
  end.

(** [str(n)] for a length or a position: its decimal digits. *)
Definition str_of_nat (n : nat) : pystr :=
  py (NilZero.string_of_uint (Nat.to_uint n)).

(** [v[:n]]; a dict cannot be sliced (a [TypeError] up to Python 3.11, a
    [KeyError] from 3.12 on). *)
Definition slice_to (n : nat) (v : pyval) : result pyval :=
  match v with
  | VStr s => Ok (VStr (take n s))
  | VList l => Ok (VList (take n l))
  | VDict _ => Raise (TypeError "unhashable type: 'slice'")
  | VInt _ => Raise (TypeError "'int' object is not subscriptable")
  | VFloat _ => Raise (TypeError "'float' object is not subscriptable")
  end.

(** An item handed to [str.join]; the message of the [TypeError] also
    names the position of the item and the type found. *)
Definition join_item (v : pyval) : result pystr :=
  match v with
  | VStr s => Ok s
  | _ => Raise (TypeError "sequence item: expected str instance")
  end.

(** [sep.join(v[:n])]: the items of a list must be strings, and a string
    is joined character by character. *)
Definition join_slice (sep : pystr) (n : nat) (v : pyval) : result pystr :=
  sliced ← slice_to n v;
  match sliced with
  | VList l => items ← for_each join_item l; mret (join sep items)
  | VStr s => mret (join sep ((λ c, [c]) <$> s))
  | _ => Raise (TypeError "can only join an iterable")
  end.

Section process.
Context `{U : Unicode} `{O : SetOrder} {tensor : Type}.
(** The standard output, the file system, the collaborators as they stand
    when the [i]-th image is processed, and the outcome of constructing
    the captioner. *)
Context (C : Console) (FS : FileSystem) (worlds : nat → World tensor)
        (load : result unit).

(** [print(line)] *)
Definition print_out (line : pystr) : io unit := pure_io (print_line C line).

(** [f"{v}"] *)
Definition format_value (v : pyval) : pystr :=
  match v with
  | VStr s => s
  | _ => str_of C v
  end.

(** [image_to_ai_description]: the [i]-th call of the process. *)
Definition image_to_ai_description (i : nat) (image_path : pystr)
  : io (gmap string pyval) :=
  _ ← get_captioner load;
  pure_io (generate_ai_optimized_description (worlds i) image_path []).1.

(** The preview printed for one result. *)
Definition show_preview (ai_result : gmap string pyval) : io unit :=
  description ← pure_io
    (slice_to 100 (dict_get ai_result "ai_description" (VStr (py "N/A"))));
  _ ← print_out (py "  AI Description: " ++ format_value description
                 ++ py "...");
  tags ← pure_io
    (join_slice (py ", ") 5 (dict_get ai_result "tags" (VList [])));
  _ ← print_out (py "  Tags: " ++ tags);
  starter ← pure_io
    (prompt ← value_get (dict_get ai_result "chatbot_prompts" (VDict ∅))
                "conversation_starter" (VStr (py "N/A"));
     slice_to 80 prompt);
  _ ← print_out (py "  Conversation Starter: " ++ format_value starter
                 ++ py "...");
  print_out [].

(** The loop of [process_folder] over the images, [i] of the [total]
    images having been processed. *)
Fixpoint describe_all (total i : nat) (images : list pystr)
  : io (list (gmap string pyval)) :=
  match images with
  | [] => mret []
  | img_path :: images' =>
      let filename := path_basename FS img_path in
      _ ← print_out (py "[" ++ str_of_nat (S i) ++ py "/"
                     ++ str_of_nat total ++ py "] Processing: "
                     ++ filename);
      (* Generate comprehensive AI description *)
      ai_result ← image_to_ai_description i img_path;
      (* Show preview of results *)
      _ ← show_preview ai_result;
      results ← describe_all total (S i) images';
      mret (ai_result :: results)
  end.

(** The record the [i]-th call returns, when it returns one. *)
Definition record_at (i : nat) (image_path : pystr) : gmap string pyval :=
  match (generate_ai_optimized_description (worlds i) image_path []).1 with
  | Ok record => record
  | Raise _ => ∅
  end.

Definition returns_record (i : nat) (image_path : pystr) : Prop :=
  (generate_ai_optimized_description (worlds i) image_path []).1
  = Ok (record_at i image_path).

Definition process_folder (input_folder output_file : pystr) : io unit :=
  _ ← print_out (py "Processing images from: " ++ input_folder);
  images ← pure_io (list_images FS input_folder);
  match images with
  | [] => print_out (py "No images found in the data folder.")
  | _ :: _ =>
      (* Ensure output directory exists *)
      _ ← make_dirs FS (path_dirname FS output_file);
      (* Process images and collect results *)
      _ ← print_out (py "Found " ++ str_of_nat (length images)
                     ++ py " images to process...");
      _ ← print_out
            (py "Generating comprehensive AI-optimized descriptions..."
             ++ [10%N]);
      results ← describe_all (length images) 0 images;
      (* Save results to JSON file *)
      _ ← write_json FS output_file
            (VDict {[ "images" := VList (VDict <$> results) ]});
      _ ← print_out (py "Processing complete! Results saved to: "
                     ++ output_file);
      _ ← print_out (py "Generated AI-optimized descriptions for "
                     ++ str_of_nat (length results) ++ py " images.");
      (* Also create a simple version for backward compatibility *)
      let simple_output :=
        str_replace output_file (py "ai_captions.json")
                    (py "captions.json") in
      simple_results ← pure_io (for_each simple_entry results);
      _ ← write_json FS simple_output
            (VDict {[ "images" := VList simple_results ]});
      print_out (py "Simple format also saved to: " ++ simple_output)
  end.
End process.

(** [posixpath.dirname]: the part up to the last ["/"], without trailing
    slashes unless it consists of slashes only. *)
Fixpoint drop_to_slash (r : pystr) : pystr :=
  match r with
  | [] => []
  | c :: r' => if (c =? 47)%N then r else drop_to_slash r'
  end.

Fixpoint strip_slashes (r : pystr) : pystr :=
  match r with
  | c :: r' => if (c =? 47)%N then strip_slashes r' else r
  | [] => []
  end.

Definition posix_dirname (p : pystr) : pystr :=
  let head := drop_to_slash (reverse p) in
  if forallb (λ c, (c =? 47)%N) head then reverse head
  else reverse (strip_slashes head).

(** A POSIX file system with the given listing in every folder, on which
    every call succeeds. *)
Definition sample_fs (names : list pystr) : FileSystem :=
  {| listdir := λ _, Ok names;
     path_join := posix_join;
     path_dirname := posix_dirname;
     path_basename := posix_basename;
     makedirs := λ _, Ok ();
     dump := λ _ _, Ok () |}.

(** A standard output that takes every line. *)
Definition open_console : Console :=
  {| print_line := λ _, Ok ();
     str_of := λ _, [] |}.

(** The state of a fresh process. *)
Definition fresh_process : process_state := ProcessState false [] [].

(** A folder listing with two images and a text file. *)
Definition sample_names : list pystr :=
  [py "a.jpg"; py "notes.txt"; py "B.PNG"].

(** Worlds in which the first image is processed and every later one
    cannot be opened. *)
Definition second_fails (i : nat) : World unit :=
  match i with
  | O => working_world (py "a man running in a park")
  | S _ => missing_file_world
  end.

(** * Properties *)

(** ** Strings *)

Lemma starts_with_spec (s w : pystr) :
  starts_with s w = true ↔ ∃ post, s = w ++ post.
Proof.
  revert s. induction w as [|a w IH]; intros s; simpl.
  - split; [by exists s | done].
  - destruct s as [|b s].
    + split; [done | intros [post Hp]; done].
    + rewrite andb_true_iff, N.eqb_eq, IH. split.
      * intros [-> [post ->]]. by exists post.
      * intros [post Hp]. simplify_eq/=. eauto.
Qed.

Lemma contains_spec (s sub : pystr) :
  contains s sub = true ↔ ∃ pre post, s = pre ++ sub ++ post.
Proof.
  induction s as [|c s IH]; simpl.
  - rewrite orb_false_r, starts_with_spec. split.
    + intros [post ->]. by exists [], post.
    + intros (pre & post & Hs). symmetry in Hs.
      apply app_eq_nil in Hs as [-> Hs]. exists post. done.
  - rewrite orb_true_iff, starts_with_spec, IH. split.
    + intros [[post ->] | (pre & post & ->)].
      * by exists [], post.
      * by exists (c :: pre), post.
    + intros ([|c' pre] & post & Hs); simplify_eq/=.
      * left. eauto.
      * right. eauto.
Qed.

Lemma any_in_spec `{U : Unicode} (words : list pystr) (text : pystr) :
  any_in words text = true ↔
  ∃ word, word ∈ words ∧ ∃ pre post, text = pre ++ word ++ post.
Proof.
  unfold any_in. rewrite existsb_exists. 
  setoid_rewrite contains_spec. setoid_rewrite list_elem_of_In. done.
Qed.

(** ** The scene context as a table *)

Lemma assign_first_nil matches field (context : gmap string pystr) :
  assign_first matches field [] context = context.
Proof. reflexivity. Qed.

Lemma assign_first_cons matches field kws v groups
    (context : gmap string pystr) :
  assign_first matches field ((kws, v) :: groups) context =
  if matches kws then <[field := v]> context
  else assign_first matches field groups context.
Proof. unfold assign_first. simpl. by destruct (matches kws). Qed.

Lemma analyze_scene_context_table `{U : Unicode} (caption : pystr) :
  analyze_scene_context caption =
  foldl (λ context '(field, _, groups),
           assign_first (λ kws, any_in kws (str_lower caption))
                        field groups context)
        default_context scene_fields.
Proof.
  unfold scene_fields, setting_groups, time_groups, activity_groups,
    social_groups, mood_groups.
  cbn [foldl].
  rewrite !assign_first_cons, !assign_first_nil.
  reflexivity.
Qed.

Lemma assign_first_lookup_ne matches field field' groups
    (context : gmap string pystr) :
  field ≠ field' →
  assign_first matches field groups context !! field' = context !! field'.
Proof.
  intros Hne. unfold assign_first.
  destruct (List.find _ groups); [by rewrite lookup_insert_ne | done].
Qed.

Lemma assign_first_lookup_eq matches field groups default
    (context : gmap string pystr) :
  context !! field = Some default →
  assign_first matches field groups context !! field
  = Some (first_group matches groups default).
Proof.
  intros Hd. unfold assign_first, first_group.
  destruct (List.find _ groups); [by rewrite lookup_insert_eq | done].
Qed.

Lemma analyze_field `{U : Unicode} (caption : pystr) field default groups :
  (field, default, groups) ∈ scene_fields →
  analyze_scene_context caption !! field
  = Some (first_group (λ kws, any_in kws (str_lower caption)) groups default).
Proof.
  intros Hin. rewrite analyze_scene_context_table.
  unfold scene_fields in *. cbn [foldl].
  repeat (apply elem_of_cons in Hin as [Hin | Hin]);
    [simplify_eq; rewrite ?assign_first_lookup_ne by done;
     apply assign_first_lookup_eq;
     rewrite ?assign_first_lookup_ne by done; reflexivity .. |].
  by apply elem_of_nil in Hin.
Qed.

(** ** Transfer to the ASCII tables

    On ASCII text every runtime agrees with [ascii_unicode], so the
    pipeline can be evaluated there. *)

Lemma is_ascii_elem (s : pystr) (o : option N) :
  is_ascii s → (∀ x, o = Some x → x ∈ s) → ascii_char o.
Proof.
  intros Hs Ho x Hx. unfold is_ascii in Hs. rewrite Forall_forall in Hs.
  apply Hs, Ho, Hx.
Qed.

Lemma ascii_lower_lt (c : N) : (c < 128)%N → (ascii_lower c < 128)%N.
Proof.
  unfold ascii_lower. intros Hc. case_match; [|done].
  apply andb_true_iff in H as [_ H%N.leb_le]. lia.
Qed.

Lemma is_ascii_lower (s : pystr) : is_ascii s → is_ascii (ascii_lower <$> s).
Proof.
  unfold is_ascii. intros Hs. apply Forall_fmap.
  eapply Forall_impl; [exact Hs|]. intros c Hc. by apply ascii_lower_lt.
Qed.

Lemma find_agree {A} (f g : A → bool) (l : list A) :
  (∀ a, f a = g a) → List.find f l = List.find g l.
Proof.
  intros Hfg. induction l as [|a l IH]; [done|].
  simpl. rewrite Hfg, IH. done.
Qed.

Section transfer.
Context `{U : Unicode}.

Lemma word_at_ascii (c : option N) :
  ascii_char c → Re.word_at c = Re.word_at (U := ascii_unicode) c.
Proof.
  intros Hc. destruct c as [x|]; [|done]. simpl.
  apply is_word_ascii, Hc. done.
Qed.

Lemma at_boundary_ascii (a b : option N) :
  ascii_char a → ascii_char b →
  Re.at_boundary a b = Re.at_boundary (U := ascii_unicode) a b.
Proof.
  intros Ha Hb. unfold Re.at_boundary.
  by rewrite (word_at_ascii a), (word_at_ascii b).
Qed.

Lemma match_alt_ascii (prev : option N) (text w : pystr) :
  is_ascii text → ascii_char prev →
  Re.match_alt prev text w = Re.match_alt (U := ascii_unicode) prev text w.
Proof.
  intros Ht Hp. unfold Re.match_alt.
  destruct (starts_with text w) eqn:Hsw; [|done].
  apply starts_with_spec in Hsw as [post ->]. simpl.
  rewrite drop_app_length.
  f_equal; apply at_boundary_ascii; try done.
  - eapply is_ascii_elem; [exact Ht|]. intros x Hx.
    by apply head_Some_elem_of.
  - unfold Re.last_of. destruct (last w) as [c|] eqn:Hl; [|done].
    eapply is_ascii_elem; [exact Ht|]. intros x [= <-].
    apply elem_of_app. left. by apply last_Some_elem_of.
  - eapply is_ascii_elem; [exact Ht|]. intros x Hx.
    apply elem_of_app. right. by apply head_Some_elem_of.
Qed.

Lemma scan_ascii (alts : list pystr) (text : pystr) :
  is_ascii text → ∀ prev skip, ascii_char prev →
  Re.scan alts prev text skip
  = Re.scan (U := ascii_unicode) alts prev text skip.
Proof.
  induction 1 as [|c rest Hc Hrest IH]; intros prev skip Hp; [done|].
  assert (ascii_char (Some c)) as Hc' by (by intros x [= <-]).
  simpl. destruct skip as [|k]; [|by apply IH].
  unfold Re.match_here.
  rewrite (find_agree _ (Re.match_alt (U := ascii_unicode) prev (c :: rest))).
  - destruct (List.find _ alts); [by rewrite IH | by apply IH].
  - intros w. apply match_alt_ascii; [by constructor | done].
Qed.

Lemma findall_ascii (alts : list pystr) (text : pystr) :
  is_ascii text →
  Re.findall alts text = Re.findall (U := ascii_unicode) alts text.
Proof. intros Ht. by apply scan_ascii. Qed.

Lemma collect_tags_ascii (text : pystr) :
  is_ascii text → collect_tags text = collect_tags (U := ascii_unicode) text.
Proof.
  intros Ht. unfold collect_tags, tag_patterns. cbn [foldl].
  by rewrite !(findall_ascii _ text Ht).
Qed.

Lemma extract_tags_ascii `{O : SetOrder} (caption : pystr) :
  is_ascii caption →
  extract_tags_from_caption caption
  = extract_tags_from_caption (U := ascii_unicode) caption.
Proof.
  intros Hc. unfold extract_tags_from_caption.
  rewrite (str_lower_ascii caption Hc).
  rewrite collect_tags_ascii by by apply is_ascii_lower.
  reflexivity.
Qed.

Lemma analyze_scene_context_ascii (caption : pystr) :
  is_ascii caption →
  analyze_scene_context caption
  = analyze_scene_context (U := ascii_unicode) caption.
Proof.
  intros Hc. unfold analyze_scene_context.
  rewrite (str_lower_ascii caption Hc). reflexivity.
Qed.
End transfer.

Lemma is_ascii_check (s : pystr) :
  forallb (λ c, (c <? 128)%N) s = true → is_ascii s.
Proof.
  rewrite forallb_forall. intros Hs. apply Forall_forall. intros c Hc.
  apply N.ltb_lt, Hs, list_elem_of_In, Hc.
Qed.

(** ** Set iteration *)

Section set_order.
Context `{O : SetOrder}.

Lemma list_of_set_elem (t : pystr) (l : list pystr) :
  t ∈ list_of_set l ↔ t ∈ l.
Proof. by rewrite (list_of_set_perm l), elem_of_remove_dups. Qed.

Lemma list_of_set_NoDup (l : list pystr) : NoDup (list_of_set l).
Proof. rewrite (list_of_set_perm l). apply NoDup_remove_dups. Qed.

Lemma list_of_set_length (l : list pystr) :
  length (list_of_set l) = length (remove_dups l).
Proof. by rewrite (list_of_set_perm l). Qed.

Lemma list_of_set_nil : list_of_set [] = [].
Proof. apply Permutation_nil_r. by rewrite (list_of_set_perm []). Qed.

Lemma any_tag_list_of_set (wanted l : list pystr) :
  any_tag wanted (list_of_set l) = any_tag wanted l.
Proof.
  unfold any_tag. induction wanted as [|w wanted IH]; [done|].
  simpl. rewrite IH. f_equal. apply bool_decide_ext, list_of_set_elem.
Qed.
End set_order.

(** Closed goals are settled by evaluation. *)
Ltac ascii_text := apply is_ascii_check; vm_compute; reflexivity.
Ltac vm_refl :=
  lazymatch goal with |- _ = ?b => vm_cast_no_check (@eq_refl _ b) end.
Ltac map_lookup :=
  repeat first
    [ rewrite lookup_insert_eq
    | rewrite lookup_insert_ne by done
    | rewrite lookup_singleton_eq
    | rewrite lookup_singleton_ne by done ].

(** ** Priority among groups *)

Lemma first_group_first matches (order : list (list pystr * pystr))
    (default : pystr) i g :
  order !! i = Some g →
  matches g.1 = true →
  (∀ j g', j < i → order !! j = Some g' → matches g'.1 = false) →
  first_group matches order default = g.2.
Proof.
  unfold first_group. revert i.
  induction order as [|g0 order IH]; intros i Hi Hg Hbefore; [done|].
  destruct i as [|i]; simpl in *.
  - simplify_eq. by rewrite Hg.
  - rewrite (Hbefore 0 g0) by (done || lia).
    apply (IH i); [done..|].
    intros j g' Hj Hg'. apply (Hbefore (S j) g'); [lia | done].
Qed.

(** ** Description parts *)

Lemma extract_tags_none `{U : Unicode} `{O : SetOrder} (caption : pystr) :
  is_ascii caption →
  collect_tags (U := ascii_unicode) (ascii_lower <$> caption) = [] →
  extract_tags_from_caption caption = [].
Proof.
  intros Hc Hnone. rewrite extract_tags_ascii by done.
  unfold extract_tags_from_caption. simpl. rewrite Hnone.
  apply list_of_set_nil.
Qed.

Lemma decide_ne_flip {A B} `{EqDecision A} (x y : A) (X Y : B) :
  (if decide (x ≠ y) then X else Y) = (if decide (x = y) then Y else X).
Proof. by repeat case_decide. Qed.

Lemma description_parts_total (caption : pystr) (ctx : gmap string pystr)
    (tags : list pystr) (s t a c : pystr) :
  ctx !! "setting" = Some s →
  ctx !! "time_of_day" = Some t →
  ctx !! "activity_level" = Some a →
  ctx !! "social_context" = Some c →
  description_parts caption ctx tags
  = Ok (caption :: field_sentence "setting" s
          ++ field_sentence "time_of_day" t
          ++ field_sentence "activity_level" a
          ++ field_sentence "social_context" c
          ++ tags_sentence tags).
Proof.
  intros Hs Ht Ha Hc.
  unfold description_parts, getitem, field_sentence, tags_sentence.
  rewrite Hs, Ht, Ha, Hc.
  cbn beta iota delta [mbind result_bind mret result_ret].
  rewrite !decide_ne_flip.
  destruct (decide (s = py "unknown")), (decide (t = py "unknown")),
    (decide (a = py "unknown")), (decide (c = py "unknown")),
    (decide (c = py "group")).
  all: (destruct tags as [|tag tags'];
      [|destruct (filter _ (tag :: tags')) as [|k ks]]).
  all: reflexivity.
Qed.

(** ** The orchestrator *)

Section orchestrator_facts.
Context `{U : Unicode} `{O : SetOrder} {tensor : Type} (W : World tensor).

Lemma bind_extern_ok {A B} (a : A) (f : A → traced B) (log : list call) :
  (extern (Ok a) ≫= f) log = f a log.
Proof. reflexivity. Qed.

Lemma bind_extern_raise {A B} (e : exn) (f : A → traced B)
    (log : list call) :
  (extern (Raise e : result A) ≫= f) log = (Raise e, log).
Proof. reflexivity. Qed.

(** When an upstream call raises, the body of the [try] raises the same
    exception before any pipeline method has run. *)
Lemma process_image_upstream_raise (image_path : pystr) (e : exn)
    (log : list call) :
  upstream W image_path = Raise e →
  process_image W image_path log = (Raise e, log).
Proof.
  unfold upstream, process_image. intros Hup.
  destruct (image_open W image_path) as [image|e1];
    [|by simplify_eq/=].
  rewrite bind_extern_ok. cbn [mbind result_bind] in Hup.
  destruct (image_size image) as [width height].
  destruct (processor W image) as [inputs|e2];
    [|by simplify_eq/=].
  rewrite bind_extern_ok. cbn [mbind result_bind] in Hup.
  destruct (generate W StandardConfig inputs) as [out|e3];
    [|by simplify_eq/=].
  rewrite bind_extern_ok. cbn [mbind result_bind] in Hup.
  destruct (decode W out) as [standard_caption|e4];
    [|by simplify_eq/=].
  rewrite bind_extern_ok. cbn [mbind result_bind] in Hup.
  destruct (generate W DetailedConfig inputs) as [out'|e5];
    [|by simplify_eq/=].
  rewrite bind_extern_ok. cbn [mbind result_bind] in Hup.
  destruct (decode W out') as [detailed_caption|e6];
    [|by simplify_eq/=].
  done.
Qed.

Lemma try_except_caught {A} (body : traced A) (handler : exn → traced A)
    (e : exn) (log log' : list call) :
  body log = (Raise e, log') →
  exn_is_exception e = true →
  try_except body handler log = handler e log'.
Proof. intros Hb He. unfold try_except. by rewrite Hb, He. Qed.

Lemma bind_invoke {A B} (c : call) (r : result A) (f : A → traced B)
    (log : list call) :
  (invoke c r ≫= f) log
  = match r with
    | Ok a => f a (log ++ [c])
    | Raise e => (Raise e, log ++ [c])
    end.
Proof. by destruct r. Qed.

(** A successful run of the [try] body: the upstream calls succeeded, the
    four pipeline methods ran in order on the standard caption, and the
    record has the full shape. *)
Lemma process_image_ok (image_path : pystr) (log log' : list call)
    (record : gmap string pyval) :
  process_image W image_path log = (Ok record, log') →
  ∃ image standard detailed,
    upstream W image_path = Ok (image, standard, detailed) ∧
    record !! "scene_context"
      = Some (str_dict (analyze_scene_context standard)) ∧
    record !! "error" = None ∧
    record !! "captions"
      = Some (VList [caption_entry "standard" standard "0.85";
                     caption_entry "detailed" detailed "0.80"]) ∧
    log' = log ++ [ExtractTags; AnalyzeSceneContext; CreateAiDescription;
                   GenerateRelatedTopics].
Proof.
  unfold upstream, process_image.
  destruct (image_open W image_path) as [image|e1];
    [|by rewrite bind_extern_raise].
  rewrite bind_extern_ok. cbn [mbind result_bind].
  destruct (image_size image) as [width height].
  destruct (processor W image) as [inputs|e2];
    [|by rewrite bind_extern_raise].
  rewrite bind_extern_ok. cbn [mbind result_bind].
  destruct (generate W StandardConfig inputs) as [out|e3];
    [|by rewrite bind_extern_raise].
  rewrite bind_extern_ok. cbn [mbind result_bind].
  destruct (decode W out) as [standard|e4];
    [|by rewrite bind_extern_raise].
  rewrite bind_extern_ok. cbn [mbind result_bind].
  destruct (generate W DetailedConfig inputs) as [out'|e5];
    [|by rewrite bind_extern_raise].
  rewrite bind_extern_ok. cbn [mbind result_bind].
  destruct (decode W out') as [detailed|e6];
    [|by rewrite bind_extern_raise].
  rewrite bind_extern_ok. cbn [mbind result_bind].
  rewrite !bind_invoke.
  destruct (create_ai_description _ _ _) as [description|e7]; [|done].
  destruct (aspect_ratio width height) as [ratio|e8];
    [|by rewrite bind_extern_raise].
  rewrite bind_extern_ok, bind_invoke.
  destruct (generate_related_topics _ _) as [topics|e9]; [|done].
  intros [= <- <-]. exists image, standard, detailed.
  split; [done|]. repeat split; try by map_lookup.
  by rewrite <- !app_assoc.
Qed.

(** A caught exception: the outcome is decided by the [print] of the
    [except] block. *)
Lemma generate_caught (image_path : pystr) (e : exn)
    (log log' : list call) :
  process_image W image_path log = (Raise e, log') →
  exn_is_exception e = true →
  generate_ai_optimized_description W image_path log
  = match print W (error_line image_path e) with
    | Ok _ => (Ok (error_record W image_path e), log')
    | Raise e' => (Raise e', log')
    end.
Proof.
  intros Hbody He. unfold generate_ai_optimized_description.
  rewrite (try_except_caught _ _ e log log') by done.
  unfold handle_error.
  by destruct (print W (error_line image_path e)) as [[]|e'].
Qed.

Lemma generate_raise (image_path : pystr) (e : exn)
    (log log' : list call) :
  process_image W image_path log = (Raise e, log') →
  exn_is_exception e = true →
  print W (error_line image_path e) = Ok () →
  generate_ai_optimized_description W image_path log
  = (Ok (error_record W image_path e), log').
Proof.
  intros Hbody He Hprint.
  by rewrite (generate_caught _ e log log'), Hprint.
Qed.

(** The two shapes of a produced record. *)
Lemma generate_shapes (image_path : pystr) (log log' : list call)
    (record : gmap string pyval) :
  generate_ai_optimized_description W image_path log = (Ok record, log') →
  process_image W image_path log = (Ok record, log') ∨
  ∃ e, process_image W image_path log = (Raise e, log') ∧
       exn_is_exception e = true ∧
       print W (error_line image_path e) = Ok () ∧
       record = error_record W image_path e.
Proof.
  destruct (process_image W image_path log) as [[record'|e] log''] eqn:Hb.
  - unfold generate_ai_optimized_description, try_except. rewrite Hb.
    intros [= <- <-]. by left.
  - destruct (exn_is_exception e) eqn:He.
    + rewrite (generate_caught _ e log log'') by done.
      destruct (print W (error_line image_path e)) as [[]|e'] eqn:Hp;
        [|done].
      intros [= <- <-]. right. by exists e.
    + unfold generate_ai_optimized_description, try_except.
      by rewrite Hb, He.
Qed.
End orchestrator_facts.

(** ** Well-formed scene contexts *)

Lemma assign_first_dom matches field groups (context : gmap string pystr) :
  field ∈ dom context →
  dom (assign_first matches field groups context) = dom context.
Proof.
  intros Hf. unfold assign_first. destruct (List.find _ groups); [|done].
  rewrite dom_insert_L. apply subseteq_union_1_L.
  by apply singleton_subseteq_l.
Qed.

Lemma assign_all_dom matches
    (fields : list (string * pystr * list (list pystr * pystr)))
    (context : gmap string pystr) :
  Forall (λ '(field, _, _), field ∈ dom context) fields →
  dom (foldl (λ context '(field, _, groups),
                assign_first matches field groups context) context fields)
  = dom context.
Proof.
  revert context.
  induction fields as [|[[field default] groups] fields IH];
    intros context Hall; [done|].
  apply Forall_cons in Hall as [Hf Hall]. simpl.
  rewrite IH.
  - by apply assign_first_dom.
  - rewrite assign_first_dom by done. exact Hall.
Qed.

Lemma first_group_in matches (groups : list (list pystr * pystr))
    (default : pystr) :
  first_group matches groups default ∈ default :: (snd <$> groups).
Proof.
  unfold first_group. destruct (List.find _ groups) as [g|] eqn:Hg.
  - apply find_some in Hg as [Hg _]. apply elem_of_cons. right.
    apply list_elem_of_fmap. exists g. split; [done|].
    by apply list_elem_of_In.
  - apply elem_of_cons. by left.
Qed.

(** The domain of each field as the source fixes it: its default and the
    values its groups assign. *)
Lemma field_domains_cover field default groups values :
  (field, default, groups) ∈ scene_fields →
  (field, values) ∈ field_domains →
  default :: (snd <$> groups) ⊆ values.
Proof.
  unfold scene_fields, field_domains. intros Hf Hd.
  repeat (apply elem_of_cons in Hf as [Hf | Hf]);
    [simplify_eq .. | by apply elem_of_nil in Hf].
  all: repeat (apply elem_of_cons in Hd as [Hd | Hd]);
    [simplify_eq .. | by apply elem_of_nil in Hd].
  all: intros x Hx; cbn [fmap list_fmap snd] in Hx;
    repeat (apply elem_of_cons in Hx as [-> | Hx]);
    [ repeat first [ apply list_elem_of_here | apply list_elem_of_further ] ..
    | by apply elem_of_nil in Hx ].
Qed.

Lemma analyze_scene_context_wf `{U : Unicode} (caption : pystr) :
  scene_context_wf (analyze_scene_context caption).
Proof.
  split.
  - rewrite analyze_scene_context_table, assign_all_dom.
    + vm_compute. reflexivity.
    + unfold scene_fields. repeat constructor; apply elem_of_dom;
        eexists; vm_compute; reflexivity.
  - intros field values Hin.
    assert (∃ default groups, (field, default, groups) ∈ scene_fields)
      as (default & groups & Hf).
    { unfold field_domains in Hin.
      repeat (apply elem_of_cons in Hin as [Hin | Hin]);
        [simplify_eq .. | by apply elem_of_nil in Hin];
        do 2 eexists; unfold scene_fields;
        repeat first [ apply list_elem_of_here | apply list_elem_of_further ]. }
    eexists. split; [by apply analyze_field|].
    eapply field_domains_cover; [done.. |]. apply first_group_in.
Qed.

(** ** Soundness of the scan *)

Section scan_sound.
Context `{U : Unicode}.

Lemma last_of_cons (prev : option N) (c : N) (l : pystr) :
  Re.last_of prev (c :: l) = Re.last_of (Some c) l.
Proof. unfold Re.last_of. rewrite last_cons. by destruct (last l). Qed.

Lemma last_of_None (l : pystr) : Re.last_of None l = last l.
Proof. unfold Re.last_of. by destruct (last l). Qed.

(** Every string reported by the scan is one of the alternatives and
    occurs in the text between two word boundaries. *)
Lemma scan_sound (alts : list pystr) (text : pystr) :
  ∀ prev skip t,
    t ∈ Re.scan alts prev text skip →
    t ∈ alts ∧
    ∃ pre post,
      text = pre ++ t ++ post ∧
      Re.at_boundary (Re.last_of prev pre) (head (t ++ post)) = true ∧
      Re.at_boundary (Re.last_of prev (pre ++ t)) (head post) = true.
Proof.
  induction text as [|c rest IH]; intros prev skip t Ht; simpl in Ht.
  { by apply elem_of_nil in Ht. }
  assert (∀ k, t ∈ Re.scan alts (Some c) rest k →
            t ∈ alts ∧
            ∃ pre post,
              c :: rest = pre ++ t ++ post ∧
              Re.at_boundary (Re.last_of prev pre) (head (t ++ post)) = true ∧
              Re.at_boundary (Re.last_of prev (pre ++ t)) (head post) = true)
    as Hlater.
  { intros k Hk. apply IH in Hk as (Halt & pre & post & -> & Hb1 & Hb2).
    split; [done|]. exists (c :: pre), post.
    split; [done|]. simpl. by rewrite !last_of_cons. }
  destruct skip as [|k]; [|by apply (Hlater k)].
  destruct (Re.match_here alts prev (c :: rest)) as [w|] eqn:Hm;
    [|by apply (Hlater 0)].
  apply elem_of_cons in Ht as [-> | Ht]; [|by eapply Hlater].
  apply find_some in Hm as [Hin Hm]. split; [by apply list_elem_of_In|].
  unfold Re.match_alt in Hm.
  apply andb_true_iff in Hm as [Hm Hb2].
  apply andb_true_iff in Hm as [Hsw Hb1].
  apply starts_with_spec in Hsw as [post Hpost].
  exists [], post. rewrite Hpost in *. rewrite drop_app_length in Hb2.
  done.
Qed.

Lemma findall_sound (alts : list pystr) (text t : pystr) :
  t ∈ Re.findall alts text → t ∈ alts ∧ word_bounded_in t text.
Proof.
  intros Ht. apply scan_sound in Ht as (Halt & pre & post & Ht & Hb1 & Hb2).
  split; [done|]. exists pre, post. by rewrite !last_of_None in *.
Qed.

Lemma collect_tags_bind (text : pystr) :
  collect_tags text = tag_patterns ≫= λ '(_, pattern), Re.findall pattern text.
Proof.
  unfold collect_tags. generalize tag_patterns. intros patterns.
  rewrite <- (app_nil_l (patterns ≫= _)). generalize (@nil pystr).
  induction patterns as [|[category pattern] patterns IH]; intros acc.
  - simpl. by rewrite app_nil_r.
  - rewrite bind_cons. cbn [foldl]. by rewrite IH, app_assoc.
Qed.

Lemma collect_tags_sound (text t : pystr) :
  t ∈ collect_tags text → t ∈ vocabulary ∧ word_bounded_in t text.
Proof.
  rewrite collect_tags_bind. intros Ht.
  apply list_elem_of_bind in Ht as ([category pattern] & Ht & Hp).
  apply findall_sound in Ht as [Halt Hb]. split; [|done].
  unfold vocabulary. apply list_elem_of_join. exists pattern.
  split; [done|]. apply list_elem_of_fmap. by exists (category, pattern).
Qed.
End scan_sound.

(** ** The basketball example *)

Lemma basketball_tags `{U : Unicode} `{O : SetOrder} :
  extract_tags_from_caption basketball_caption
  = list_of_set (py <$> ["people"; "playing"; "basketball"; "night"]).
Proof.
  rewrite extract_tags_ascii by ascii_text.
  unfold extract_tags_from_caption. f_equal; vm_compute; reflexivity.
Qed.

Lemma basketball_related_topics `{U : Unicode} `{O : SetOrder} :
  generate_related_topics (extract_tags_from_caption basketball_caption)
    (analyze_scene_context basketball_caption)
  = Ok (take 5 (list_of_set basketball_topics)).
Proof.
  rewrite basketball_tags, analyze_scene_context_ascii by ascii_text.
  unfold generate_related_topics. rewrite !any_tag_list_of_set.
  vm_compute. reflexivity.
Qed.

(** * Main results *)

(** C1, as stated, fails: no runtime makes group matching a matter of the
    caption's words -- for the caption "personally" the word sets are
    disjoint from every social-context group, yet the code assigns
    "individual". *)
Lemma C1_word_matching_refuted :
  ¬ ∃ U : Unicode, ∀ caption field default groups,
      (field, default, groups) ∈ scene_fields →
      analyze_scene_context caption !! field
      = Some (first_group
                (λ kws, words_intersect kws (str_lower caption))
                groups default).
Proof.
  intros [U Hclaim].
  specialize (Hclaim (py "personally") "social_context" (py "unknown")
                social_groups).
  rewrite analyze_scene_context_ascii in Hclaim by ascii_text.
  rewrite (str_lower_ascii (py "personally")) in Hclaim by ascii_text.
  assert (("social_context", py "unknown", social_groups) ∈ scene_fields)
    as Hin by (unfold scene_fields; set_solver).
  specialize (Hclaim Hin). vm_compute in Hclaim. discriminate.
Qed.

(** C1 (amended): in every field of [analyze_scene_context] a keyword group
    matches exactly when one of its keywords occurs as a substring of the
    lower-cased caption, and the field takes the value of the first
    matching group in source order, else its default; so "personally",
    which contains "person" inside a longer word, gets social context
    "individual". *)
Theorem C1_groups_match_by_substring `{U : Unicode} :
  (∀ keywords text,
     any_in keywords text = true ↔
     ∃ k, k ∈ keywords ∧ ∃ pre post, text = pre ++ k ++ post) ∧
  (∀ caption,
     Forall (λ '(field, default, groups),
               analyze_scene_context caption !! field
               = Some (first_group
                         (λ kws, any_in kws (str_lower caption))
                         groups default))
            scene_fields) ∧
  analyze_scene_context (py "personally") !! "social_context"
  = Some (py "individual").
Proof.
  split; [exact any_in_spec|]. split.
  - intros caption. apply Forall_forall. intros [[field default] groups] Hin.
    by apply analyze_field.
  - rewrite analyze_scene_context_ascii by ascii_text.
    vm_compute. reflexivity.
Qed.

(** C2, as stated, fails: with the groups ranked morning, day, evening,
    night, the caption "morning at night" would be a morning scene; the
    code answers "night". *)
Lemma C2_enumerated_order_refuted :
  ¬ ∃ U : Unicode, ∀ caption i g,
      time_groups_as_enumerated !! i = Some g →
      any_in g.1 (str_lower caption) = true →
      (∀ j g', j < i → time_groups_as_enumerated !! j = Some g' →
               any_in g'.1 (str_lower caption) = false) →
      analyze_scene_context caption !! "time_of_day" = Some g.2.
Proof.
  intros [U Hclaim].
  specialize (Hclaim (py "morning at night") 0
                (py <$> ["morning"; "sunrise"], py "morning") eq_refl).
  rewrite analyze_scene_context_ascii in Hclaim by ascii_text.
  rewrite (str_lower_ascii (py "morning at night")) in Hclaim by ascii_text.
  assert (analyze_scene_context (U := ascii_unicode) (py "morning at night")
            !! "time_of_day" = Some (py "morning")) as Habs.
  { apply Hclaim; [vm_compute; reflexivity | intros j g' Hj; lia]. }
  vm_compute in Habs. discriminate.
Qed.

(** C2 (amended): the time-of-day groups are tested in the order night
    (night, evening, dark), morning (morning, sunrise), day (afternoon, day,
    sunny, bright), evening (sunset, dusk); for every caption the assigned
    value is that of the earliest matching group in that order. *)
Theorem C2_time_of_day_priority `{U : Unicode} (caption : pystr) i g :
  time_groups !! i = Some g →
  any_in g.1 (str_lower caption) = true →
  (∀ j g', j < i → time_groups !! j = Some g' →
           any_in g'.1 (str_lower caption) = false) →
  analyze_scene_context caption !! "time_of_day" = Some g.2.
Proof.
  intros Hi Hg Hbefore.
  rewrite (analyze_field caption "time_of_day" (py "unknown") time_groups)
    by (unfold scene_fields; set_solver).
  f_equal. by apply (first_group_first _ _ _ i).
Qed.

Lemma C2_time_of_day_priority_witness :
  analyze_scene_context (U := ascii_unicode) (py "a sunny morning")
    !! "time_of_day" = Some (py "morning").
Proof.
  apply (C2_time_of_day_priority (U := ascii_unicode)
           (py "a sunny morning") 1
           (py <$> ["morning"; "sunrise"], py "morning")).
  - reflexivity.
  - vm_compute. reflexivity.
  - intros j g' Hj Hg'. destruct j as [|j]; [|lia].
    injection Hg' as <-. vm_compute. reflexivity.
Defined.

(** C3, as stated, fails: the caption "smiling" has mood "positive", one
    non-default field, yet the description is the caption alone -- nothing
    is appended for the mood. *)
Lemma C3_mood_sentence_refuted :
  ¬ ∃ (U : Unicode) (O : SetOrder), ∀ caption parts,
      description_parts caption (analyze_scene_context caption)
        (extract_tags_from_caption caption) = Ok parts →
      1 + nondefault_fields (analyze_scene_context caption) ≤ length parts.
Proof.
  intros (U & O & Hclaim).
  specialize (Hclaim (py "smiling") [py "smiling"]).
  rewrite extract_tags_none in Hclaim
    by (ascii_text || (vm_compute; reflexivity)).
  rewrite analyze_scene_context_ascii in Hclaim by ascii_text.
  assert (1 + nondefault_fields
                (analyze_scene_context (U := ascii_unicode) (py "smiling"))
          ≤ length [py "smiling"]) as Habs
    by (apply Hclaim; vm_compute; reflexivity).
  vm_compute in Habs. lia.
Qed.

(** C3 (amended): the description consists of the caption, then one
    sentence for each of the fields setting, time_of_day, activity_level and
    social_context whose value is not "unknown", then the tag sentence if
    any; the mood field contributes no sentence: contexts that differ only
    in mood yield the same description. *)
Theorem C3_sentences_for_four_fields (caption : pystr)
    (context : gmap string pystr) (tags : list pystr) (s t a c : pystr) :
  context !! "setting" = Some s →
  context !! "time_of_day" = Some t →
  context !! "activity_level" = Some a →
  context !! "social_context" = Some c →
  description_parts caption context tags
  = Ok (caption :: field_sentence "setting" s
          ++ field_sentence "time_of_day" t
          ++ field_sentence "activity_level" a
          ++ field_sentence "social_context" c
          ++ tags_sentence tags)
  ∧ ∀ context' : gmap string pystr,
      (∀ field, field ≠ "mood" → context' !! field = context !! field) →
      create_ai_description caption context' tags
      = create_ai_description caption context tags.
Proof.
  intros Hs Ht Ha Hc.
  split; [by apply description_parts_total|].
  intros context' Hsame. unfold create_ai_description.
  rewrite (description_parts_total caption context tags s t a c) by done.
  rewrite (description_parts_total caption context' tags s t a c);
    [done | by rewrite Hsame ..].
Qed.

Lemma C3_sentences_for_four_fields_witness :
  description_parts (py "happy man")
    (analyze_scene_context (U := ascii_unicode) (py "happy man"))
    [py "happy"; py "man"]
  = Ok [py "happy man"; py "This focuses on an individual person.";
        py "Key elements include: happy."].
Proof.
  apply (C3_sentences_for_four_fields (py "happy man")
           (analyze_scene_context (U := ascii_unicode) (py "happy man"))
           [py "happy"; py "man"]
           (py "unknown") (py "unknown") (py "unknown") (py "individual"));
    vm_compute; reflexivity.
Defined.

(** C4, as stated, fails: the [except] block prints the error line before
    it builds the record, and when that [print] raises -- here on a closed
    standard output -- the exception leaves the orchestrator and no record
    is returned. *)
Lemma C4_closed_stdout_refuted :
  ¬ ∃ (U : Unicode) (O : SetOrder),
      ∀ (W : World unit) image_path e log,
        upstream W image_path = Raise e →
        exn_is_exception e = true →
        ∃ record,
          generate_ai_optimized_description W image_path log
          = (Ok record, log).
Proof.
  intros (U & O & Hclaim).
  destruct (Hclaim closed_stdout_world (py "x.jpg")
              (Exn "FileNotFoundError" true (py "file not found")) [])
    as (record & Hrecord); [reflexivity..|].
  rewrite (generate_caught closed_stdout_world (py "x.jpg")
             (Exn "FileNotFoundError" true (py "file not found")) [] [])
    in Hrecord; [|by apply process_image_upstream_raise|reflexivity].
  cbn [print closed_stdout_world] in Hrecord.
  by apply (f_equal (λ x, match x.1 with Ok _ => true | Raise _ => false end))
    in Hrecord.
Qed.

(** C4 (amended): whenever an upstream call raises an error and the line
    reporting it can be printed, the orchestrator returns the fixed-shape
    error record -- the filename, the timestamp, the error message, the
    fixed apology, empty captions, tags and scene context, and the two
    fallback topics -- and the log of invoked pipeline methods is left as
    it was: tag extraction, context inference, synthesis and topic
    recommendation are not invoked. *)
Theorem C4_upstream_error_record `{U : Unicode} `{O : SetOrder}
    {tensor : Type} (W : World tensor) (image_path : pystr) (e : exn)
    (log : list call) :
  upstream W image_path = Raise e →
  exn_is_exception e = true →
  print W (py "Error processing " ++ image_path ++ py ": " ++ exn_str e)
  = Ok () →
  generate_ai_optimized_description W image_path log
  = (Ok {[ "filename" := VStr (basename W image_path);
           "timestamp" := VStr (now_isoformat W);
           "error" := VStr (exn_str e);
           "ai_description" := VStr (py
             "Unable to process this image. Please try again or use a different image.");
           "captions" := VList [];
           "tags" := VList [];
           "scene_context" := VDict ∅;
           "related_topics" := VList [VStr (py "image analysis");
                                      VStr (py "technical support")] ]},
     log).
Proof.
  intros Hup He Hprint.
  rewrite (generate_raise W image_path e log log);
    [reflexivity | by apply process_image_upstream_raise | done..].
Qed.

Lemma C4_upstream_error_record_witness :
  generate_ai_optimized_description (U := ascii_unicode)
    (O := insertion_order) missing_file_world (py "photos/x.jpg") []
  = (Ok {[ "filename" := VStr (py "x.jpg");
           "timestamp" := VStr (py "2024-01-01T00:00:00");
           "error" := VStr (py "file not found");
           "ai_description" := VStr (py
             "Unable to process this image. Please try again or use a different image.");
           "captions" := VList [];
           "tags" := VList [];
           "scene_context" := VDict ∅;
           "related_topics" := VList [VStr (py "image analysis");
                                      VStr (py "technical support")] ]},
     []).
Proof.
  apply (C4_upstream_error_record (U := ascii_unicode)
           (O := insertion_order) missing_file_world (py "photos/x.jpg")
           (Exn "FileNotFoundError" true (py "file not found")) []).
  - reflexivity.
  - reflexivity.
  - reflexivity.
Defined.


(** C6: for every tag list and every context that carries the setting and
    activity_level fields (as every scene context does),
    [generate_related_topics] returns a list of at most five topics without
    duplicates. *)
Theorem C6_topics_at_most_five_distinct `{O : SetOrder} (tags : list pystr)
    (context : gmap string pystr) :
  is_Some (context !! "setting") →
  is_Some (context !! "activity_level") →
  ∃ topics, generate_related_topics tags context = Ok topics ∧
            length topics ≤ 5 ∧ NoDup topics.
Proof.
  intros [s Hs] [a Ha]. unfold generate_related_topics, getitem.
  rewrite Hs, Ha. cbn beta iota delta [mbind result_bind mret result_ret].
  eexists. split; [reflexivity|]. split.
  - rewrite length_take. lia.
  - eapply sublist_NoDup; [apply list_of_set_NoDup | apply sublist_take].
Qed.

Lemma C6_topics_at_most_five_distinct_witness :
  ∃ topics,
    generate_related_topics (O := reverse_order)
      (py <$> ["running"; "park"; "basketball"])
      {[ "setting" := py "outdoor"; "activity_level" := py "high" ]}
    = Ok topics ∧ length topics ≤ 5 ∧ NoDup topics.
Proof.
  apply (C6_topics_at_most_five_distinct (O := reverse_order)
           (py <$> ["running"; "park"; "basketball"])
           {[ "setting" := py "outdoor"; "activity_level" := py "high" ]}).
  - exists (py "outdoor"). reflexivity.
  - exists (py "high"). reflexivity.
Defined.

(** C7, as stated, fails: the record produced when the image cannot be
    opened carries an empty scene context, which has none of the five
    fields. *)
Lemma C7_error_record_context_refuted :
  ¬ ∃ (U : Unicode) (O : SetOrder),
      ∀ (W : World unit) image_path log record log',
        generate_ai_optimized_description W image_path log
        = (Ok record, log') →
        ∃ context, record !! "scene_context" = Some (str_dict context) ∧
                   scene_context_wf context.
Proof.
  intros (U & O & Hclaim).
  destruct (Hclaim missing_file_world (py "x.jpg") []
              (error_record missing_file_world (py "x.jpg")
                 (Exn "FileNotFoundError" true (py "file not found"))) [])
    as (context & Hctx & Hdom & _).
  { by apply generate_raise. }
  assert (context = ∅) as ->.
  { apply (fmap_empty_inv VStr). unfold str_dict in Hctx.
    vm_compute in Hctx. by injection Hctx. }
  assert (is_Some ((∅ : gmap string pystr) !! "setting")) as [v Hv].
  { apply elem_of_dom. rewrite Hdom. apply elem_of_list_to_set.
    apply list_elem_of_here. }
  by rewrite lookup_empty in Hv.
Qed.

(** C7 (amended): for every caption [analyze_scene_context] populates
    exactly the five fields, each within its enumerated domain, and a
    record produced on the success path carries such a context (that of
    the standard caption); the record produced on the error path carries
    an empty scene context together with the error message. *)
Theorem C7_scene_context_fields `{U : Unicode} `{O : SetOrder} :
  (∀ caption, scene_context_wf (analyze_scene_context caption)) ∧
  (∀ (tensor : Type) (W : World tensor) image_path log record log',
     generate_ai_optimized_description W image_path log = (Ok record, log') →
     (∃ caption,
        record !! "scene_context"
          = Some (str_dict (analyze_scene_context caption)) ∧
        record !! "error" = None) ∨
     (record !! "scene_context" = Some (VDict ∅) ∧
      is_Some (record !! "error"))).
Proof.
  split; [exact analyze_scene_context_wf|].
  intros tensor W image_path log record log' Hgen.
  apply generate_shapes in Hgen as [Hok | (e & _ & _ & _ & ->)].
  - left. apply process_image_ok in Hok
      as (image & standard & detailed & _ & Hctx & Herr & _).
    by exists standard.
  - right. split; [reflexivity | by eexists].
Qed.

Lemma C7_scene_context_fields_witness :
  park_run = (Ok park_record, park_run.2) ∧
  ((∃ caption,
      park_record !! "scene_context"
        = Some (str_dict
                  (analyze_scene_context (U := ascii_unicode) caption)) ∧
      park_record !! "error" = None) ∨
   (park_record !! "scene_context" = Some (VDict ∅) ∧
    is_Some (park_record !! "error"))).
Proof.
  split; [vm_refl|].
  apply (proj2 (C7_scene_context_fields (U := ascii_unicode)
                  (O := insertion_order))
           unit (working_world (py "a man running in a park"))
           (py "data/park.jpg") [] park_record park_run.2).
  vm_refl.
Defined.

(** C9: when [generate_ai_optimized_description] takes its error path --
    the [try] body raises and the [except] block returns its record -- the
    returned record has an empty "captions" list and [image_to_caption]
    raises [IndexError] instead of returning the fallback string; more
    generally the lookup chain of [image_to_caption] returns a value only
    if a first caption element exists, and that value is the fallback
    only if this element has no "text" key. *)
Theorem C9_error_path_raises_index_error `{U : Unicode} `{O : SetOrder}
    {tensor : Type} (W : World tensor) (image_path : pystr) (e : exn)
    (log log' log'' : list call) (record : gmap string pyval) :
  process_image W image_path log = (Raise e, log') →
  exn_is_exception e = true →
  generate_ai_optimized_description W image_path log = (Ok record, log'') →
  record !! "captions" = Some (VList []) ∧
  image_to_caption W image_path log
  = (Raise (IndexError "list index out of range"), log'') ∧
  (∀ (res : gmap string pyval) (v : pyval),
     first_caption_text res = Ok v →
     ∃ first rest,
       dict_get res "captions" (VList [VDict ∅]) = VList (VDict first :: rest) ∧
       (first !! "text" = Some v ∨
        (first !! "text" = None ∧ v = fallback_caption))).
Proof.
  intros Hbody He Hgen.
  assert (record = error_record W image_path e) as ->.
  { apply generate_shapes in Hgen as [Hok | (e' & Hbody' & _ & _ & ->)];
      congruence. }
  split; [reflexivity|]. split.
  - unfold image_to_caption, mbind, traced_bind. by rewrite Hgen.
  - intros res v. unfold first_caption_text.
    destruct (dict_get res "captions" _) as [s| | |l|d]; try done.
    + by destruct s.
    + destruct l as [|[?|?|?|?|first] rest]; try done.
      cbn. unfold dict_get. intros [= <-]. exists first, rest.
      split; [done|]. destruct (first !! "text"); eauto.
Qed.

Lemma C9_error_path_raises_index_error_witness :
  image_to_caption (U := ascii_unicode) (O := insertion_order)
    missing_file_world (py "x.jpg") []
  = (Raise (IndexError "list index out of range"), []).
Proof.
  apply (C9_error_path_raises_index_error (U := ascii_unicode)
           (O := insertion_order) missing_file_world (py "x.jpg")
           (Exn "FileNotFoundError" true (py "file not found")) [] [] []
           (error_record missing_file_world (py "x.jpg")
              (Exn "FileNotFoundError" true (py "file not found")))).
  - reflexivity.
  - reflexivity.
  - reflexivity.
Defined.

(** C8, as stated, fails: seven topics are collected for this caption and
    five survive, chosen by the iteration order of the set; when the set
    iterates in reverse insertion order neither "sports" nor "athletics" is
    among them. *)
Lemma C8_sports_topics_refuted :
  ¬ ∃ U : Unicode, ∀ O : SetOrder,
      let tags := extract_tags_from_caption basketball_caption in
      let context := analyze_scene_context basketball_caption in
      Forall (λ t, t ∈ tags)
             (py <$> ["people"; "playing"; "basketball"; "night"]) ∧
      context !! "time_of_day" = Some (py "night") ∧
      context !! "social_context" = Some (py "group") ∧
      ∃ topics, generate_related_topics tags context = Ok topics ∧
                py "sports" ∈ topics ∧ py "athletics" ∈ topics.
Proof.
  intros [U Hclaim].
  destruct (Hclaim reverse_order) as (_ & _ & _ & topics & Hgen & Hs & _).
  rewrite basketball_related_topics in Hgen. injection Hgen as <-.
  vm_compute in Hs.
  repeat (apply elem_of_cons in Hs as [Hs | Hs]; [discriminate|]).
  by apply elem_of_nil in Hs.
Qed.

(** C8 (amended): for the caption "a group of people playing basketball at
    night" the tags include people, playing, basketball and night, the
    context has time_of_day = night and social_context = group, and the
    related topics are five distinct entries out of sports, athletics,
    competition, team activities, active lifestyle, energy and motivation;
    which five depends on the iteration order of the set -- with insertion
    order they are the first five, "sports" and "athletics" included. *)
Theorem C8_basketball_example `{U : Unicode} `{O : SetOrder} :
  let tags := extract_tags_from_caption basketball_caption in
  let context := analyze_scene_context basketball_caption in
  Forall (λ t, t ∈ tags)
         (py <$> ["people"; "playing"; "basketball"; "night"]) ∧
  context !! "time_of_day" = Some (py "night") ∧
  context !! "social_context" = Some (py "group") ∧
  (∃ topics, generate_related_topics tags context = Ok topics ∧
             length topics = 5 ∧ NoDup topics ∧
             topics ⊆ basketball_topics) ∧
  generate_related_topics (O := insertion_order)
    (extract_tags_from_caption (O := insertion_order) basketball_caption)
    context
  = Ok (py <$> ["sports"; "athletics"; "competition"; "team activities";
                "active lifestyle"]).
Proof.
  cbv zeta. split; [|split; [|split; [|split]]].
  - rewrite basketball_tags. apply Forall_forall. intros t Ht.
    by apply (proj2 (list_of_set_elem _ _)).
  - rewrite analyze_scene_context_ascii by ascii_text.
    vm_compute. reflexivity.
  - rewrite analyze_scene_context_ascii by ascii_text.
    vm_compute. reflexivity.
  - rewrite basketball_related_topics. eexists. split; [reflexivity|].
    split; [|split].
    + rewrite length_take, list_of_set_length. vm_compute. reflexivity.
    + eapply sublist_NoDup; [apply list_of_set_NoDup | apply sublist_take].
    + intros t Ht. apply subseteq_take in Ht.
      by apply (proj1 (list_of_set_elem _ _)) in Ht.
  - rewrite (basketball_related_topics (O := insertion_order)).
    vm_compute. reflexivity.
Qed.

(** C10: [generate_related_topics] reads the tag list and the setting and
    activity_level fields only: two contexts that agree on these two fields
    give equal results, however they differ elsewhere. *)
Theorem C10_topics_ignore_other_fields `{O : SetOrder} (tags : list pystr)
    (context1 context2 : gmap string pystr) :
  context1 !! "setting" = context2 !! "setting" →
  context1 !! "activity_level" = context2 !! "activity_level" →
  generate_related_topics tags context1
  = generate_related_topics tags context2.
Proof.
  intros Hs Ha. unfold generate_related_topics, getitem.
  by rewrite Hs, Ha.
Qed.

Lemma C10_topics_ignore_other_fields_witness :
  generate_related_topics (O := insertion_order) [py "park"]
    {[ "setting" := py "outdoor"; "time_of_day" := py "night";
       "activity_level" := py "high"; "social_context" := py "group";
       "mood" := py "positive" ]}
  = generate_related_topics (O := insertion_order) [py "park"]
    {[ "setting" := py "outdoor"; "time_of_day" := py "morning";
       "activity_level" := py "high"; "social_context" := py "individual";
       "mood" := py "calm" ]}.
Proof.
  apply (C10_topics_ignore_other_fields (O := insertion_order)); reflexivity.
Defined.

(** * Further properties of the code *)

(** ** Contexts without a match *)

Lemma find_none_iff {A} (f : A → bool) (l : list A) :
  List.find f l = None ↔ Forall (λ a, f a = false) l.
Proof.
  induction l as [|a l IH]; simpl.
  - split; [constructor | done].
  - destruct (f a) eqn:Hfa.
    + split; [done|]. intros Hall. apply Forall_cons in Hall as [Ha _].
      congruence.
    + rewrite IH. split; [by constructor | by intros [_ ?]%Forall_cons].
Qed.

Lemma first_group_default matches (groups : list (list pystr * pystr))
    (default : pystr) :
  Forall (λ g, g.2 ≠ default) groups →
  first_group matches groups default = default ↔
  Forall (λ g, matches g.1 = false) groups.
Proof.
  intros Hne. rewrite <- find_none_iff. unfold first_group.
  destruct (List.find _ groups) as [g|] eqn:Hg; [|done].
  split; [|done]. intros Hd. apply find_some in Hg as [Hin _].
  apply list_elem_of_In in Hin. rewrite Forall_forall in Hne.
  by destruct (Hne g Hin).
Qed.

Lemma scene_fields_values_not_default :
  Forall (λ '(field, default, groups), Forall (λ g, g.2 ≠ default) groups)
         scene_fields.
Proof.
  unfold scene_fields, setting_groups, time_groups, activity_groups,
    social_groups, mood_groups.
  repeat (constructor; [repeat (constructor; [by vm_compute|]); constructor|]).
  constructor.
Qed.

Lemma analyze_fields_default `{U : Unicode} (caption : pystr) :
  analyze_scene_context caption = default_context ↔
  Forall (λ '(field, default, groups),
            analyze_scene_context caption !! field = Some default)
         scene_fields.
Proof.
  split.
  - intros ->. unfold scene_fields. repeat constructor.
  - intros Hall. apply map_eq. intros k.
    destruct (decide (k ∈ dom (analyze_scene_context caption))) as [Hk|Hk].
    + destruct (analyze_scene_context_wf caption) as [Hdom _].
      rewrite Hdom in Hk. apply elem_of_list_to_set in Hk.
      unfold scene_fields in Hall. cbn in Hk.
      repeat (apply Forall_cons in Hall as [? Hall]).
      repeat (apply elem_of_cons in Hk as [-> | Hk]);
        [by etrans .. | by apply elem_of_nil in Hk].
    + pose proof Hk as Hk'.
      destruct (analyze_scene_context_wf caption) as [Hdom _].
      rewrite Hdom in Hk'. apply not_elem_of_dom in Hk. rewrite Hk.
      symmetry. apply not_elem_of_dom.
      intros Hd. apply Hk'. revert Hd. 
      replace (dom default_context)
        with (list_to_set (C := gset string) (fst <$> field_domains))
        by (vm_compute; reflexivity).
      done.
Qed.

(** X2: [analyze_scene_context] returns the initial context -- every field
    "unknown", mood "neutral" -- exactly when no keyword of any group
    occurs in the lower-cased caption. *)
Theorem X_default_context_iff_no_keyword `{U : Unicode} (caption : pystr) :
  analyze_scene_context caption = default_context ↔
  Forall (λ '(field, default, groups),
            Forall (λ g, any_in g.1 (str_lower caption) = false) groups)
         scene_fields.
Proof.
  rewrite analyze_fields_default.
  pose proof scene_fields_values_not_default as Hne.
  revert Hne. generalize (eq_refl scene_fields).
  generalize scene_fields at 1 3 4 5. intros fields Hsub.
  assert (∀ x, x ∈ fields → x ∈ scene_fields) as Hin by (by rewrite Hsub).
  clear Hsub. induction fields as [|[[field default] groups] fields IH];
    intros Hne; [by split; constructor|].
  apply Forall_cons in Hne as [Hg Hne].
  rewrite !Forall_cons, IH; [|intros x Hx; apply Hin; by right | done].
  cbn beta iota.
  rewrite (analyze_field caption field default groups)
    by (apply Hin; by left).
  rewrite <- (first_group_default
                (λ kws, any_in kws (str_lower caption)) groups default Hg).
  split; intros [H1 H2]; split; congruence.
Qed.

(** ** Missing keys *)

Lemma getitem_is_Some (context : gmap string pystr) (key : string) :
  getitem context key
  = match context !! key with
    | Some v => Ok v
    | None => Raise (KeyError key)
    end.
Proof. reflexivity. Qed.

Lemma create_ai_description_first_missing (caption : pystr)
    (context : gmap string pystr) (tags : list pystr) :
  match first_missing context description_keys with
  | Some key =>
      create_ai_description caption context tags = Raise (KeyError key)
  | None => ∃ description,
      create_ai_description caption context tags = Ok description
  end.
Proof.
  unfold first_missing, description_keys, create_ai_description,
    description_parts, getitem. cbn [List.find].
  destruct (context !! "setting") as [s|]; [|reflexivity].
  destruct (context !! "time_of_day") as [t|]; [|reflexivity].
  destruct (context !! "activity_level") as [a|]; [|reflexivity].
  destruct (context !! "social_context") as [c|]; [|reflexivity].
  cbn. eexists. reflexivity.
Qed.

Lemma generate_related_topics_first_missing `{O : SetOrder} (tags : list pystr)
    (context : gmap string pystr) :
  match first_missing context topic_keys with
  | Some key => generate_related_topics tags context = Raise (KeyError key)
  | None => ∃ topics, generate_related_topics tags context = Ok topics
  end.
Proof.
  unfold first_missing, topic_keys, generate_related_topics, getitem.
  cbn [List.find].
  destruct (context !! "setting") as [s|]; [|reflexivity].
  destruct (context !! "activity_level") as [a|]; [|reflexivity].
  cbn. eexists. reflexivity.
Qed.

(** ** Descriptions *)

Lemma tags_sentence_person_only (tags : list pystr) :
  Forall (λ t, t ∈ person_terms) tags → tags_sentence tags = [].
Proof.
  intros Hall. unfold tags_sentence.
  replace (filter _ tags) with (@nil pystr); [done|].
  symmetry. induction Hall as [|t tags Ht Hall IH]; [done|].
  rewrite filter_cons. rewrite decide_False; [done|].
  intros Hnot. by apply Hnot.
Qed.

(** X4: when the four fields read by [create_ai_description] are all
    "unknown" and every tag is one of person, people, man, woman (in
    particular when there is no tag), the description is exactly the
    caption. *)
Theorem X_description_is_caption (caption : pystr)
    (context : gmap string pystr) (tags : list pystr) :
  Forall (λ key, context !! key = Some (py "unknown")) description_keys →
  Forall (λ t, t ∈ person_terms) tags →
  create_ai_description caption context tags = Ok caption.
Proof.
  intros Hkeys Htags. unfold description_keys in Hkeys.
  repeat (apply Forall_cons in Hkeys as [? Hkeys]).
  unfold create_ai_description.
  rewrite (description_parts_total caption context tags
             (py "unknown") (py "unknown") (py "unknown") (py "unknown"))
    by done.
  rewrite tags_sentence_person_only by done. reflexivity.
Qed.

Lemma X_description_is_caption_witness :
  create_ai_description (py "a man") default_context [py "man"]
  = Ok (py "a man").
Proof.
  apply (X_description_is_caption (py "a man") default_context [py "man"]).
  - unfold description_keys. repeat constructor.
  - repeat constructor.
Defined.

Lemma join_cons_prefix (sep p : pystr) (ps : list pystr) :
  ∃ rest, join sep (p :: ps) = p ++ rest.
Proof. destruct ps; simpl; [exists []; by rewrite app_nil_r | eauto]. Qed.

(** X5: whenever [create_ai_description] returns, the description starts
    with the caption, unchanged. *)
Theorem X_description_starts_with_caption (caption : pystr)
    (context : gmap string pystr) (tags : list pystr) (description : pystr) :
  create_ai_description caption context tags = Ok description →
  ∃ rest, description = caption ++ rest.
Proof.
  pose proof (create_ai_description_first_missing caption context tags) as Hk.
  unfold first_missing, description_keys in Hk. cbn [List.find] in Hk.
  intros Hd. unfold create_ai_description in *.
  destruct (context !! "setting") as [s|] eqn:Hs;
    [|rewrite bool_decide_eq_true_2 in Hk by done; congruence].
  destruct (context !! "time_of_day") as [t|] eqn:Ht;
    [|rewrite bool_decide_eq_false_2, bool_decide_eq_true_2 in Hk by done;
      congruence].
  destruct (context !! "activity_level") as [a|] eqn:Ha;
    [|rewrite !bool_decide_eq_false_2, bool_decide_eq_true_2 in Hk by done;
      congruence].
  destruct (context !! "social_context") as [c|] eqn:Hc;
    [|rewrite !bool_decide_eq_false_2, bool_decide_eq_true_2 in Hk by done;
      congruence].
  rewrite (description_parts_total caption context tags s t a c) in Hd
    by done.
  assert (description
          = join (py " ")
              (caption :: field_sentence "setting" s
                 ++ field_sentence "time_of_day" t
                 ++ field_sentence "activity_level" a
                 ++ field_sentence "social_context" c
                 ++ tags_sentence tags)) as -> by (by injection Hd).
  apply join_cons_prefix.
Qed.

Lemma X_description_starts_with_caption_witness :
  ∃ rest,
    py "a man running in a park This appears to be an outdoor scene."
    = py "a man running in a park" ++ rest.
Proof.
  apply (X_description_starts_with_caption (py "a man running in a park")
           (<["setting" := py "outdoor"]> default_context) []).
  vm_compute. reflexivity.
Defined.

(** ** Topics *)

Lemma triggered_topics_NoDup (tags : list pystr) (s a : pystr) :
  NoDup (triggered_topics tags s a).
Proof.
  unfold triggered_topics, topic_rules.
  destruct (any_tag _ tags), (any_tag _ tags), (any_tag _ tags),
    (bool_decide (s = _)), (bool_decide (a = _));
    apply (bool_decide_unpack _); vm_compute; exact I.
Qed.

Lemma generate_related_topics_triggered `{O : SetOrder} (tags : list pystr)
    (context : gmap string pystr) (s a : pystr) :
  context !! "setting" = Some s →
  context !! "activity_level" = Some a →
  generate_related_topics tags context
  = Ok (take 5 (list_of_set (triggered_topics tags s a))).
Proof.
  intros Hs Ha. unfold generate_related_topics, getitem. rewrite Hs, Ha.
  unfold triggered_topics, topic_rules.
  cbn beta iota delta [mbind result_bind mret result_ret].
  destruct (decide (s = py "outdoor")) as [Es|Es];
    [ rewrite (bool_decide_eq_true_2 _ Es)
    | rewrite (bool_decide_eq_false_2 _ Es) ];
    (destruct (decide (a = py "high")) as [Ea|Ea];
     [ rewrite (bool_decide_eq_true_2 _ Ea)
     | rewrite (bool_decide_eq_false_2 _ Ea) ]);
    destruct (any_tag _ tags), (any_tag _ tags), (any_tag _ tags);
    reflexivity.
Qed.

(** X7: for a context that has setting and activity_level,
    [generate_related_topics] returns topics of the rules that fire only,
    as many as there are of them up to five; when at most five topics are
    triggered all of them are returned, and the list is empty exactly when
    no rule fires. *)
Theorem X_topics_are_triggered `{O : SetOrder} (tags : list pystr)
    (context : gmap string pystr) (s a : pystr) :
  context !! "setting" = Some s →
  context !! "activity_level" = Some a →
  ∃ topics,
    generate_related_topics tags context = Ok topics ∧
    topics ⊆ triggered_topics tags s a ∧
    length topics = min 5 (length (triggered_topics tags s a)) ∧
    (length (triggered_topics tags s a) ≤ 5 →
     topics ≡ₚ triggered_topics tags s a) ∧
    (topics = [] ↔ Forall (λ rule, rule.1 = false) (topic_rules tags s a)).
Proof.
  intros Hs Ha. eexists. split; [by apply generate_related_topics_triggered|].
  pose proof (triggered_topics_NoDup tags s a) as Hnd.
  assert (list_of_set (triggered_topics tags s a)
          ≡ₚ triggered_topics tags s a) as Hperm.
  { apply NoDup_Permutation; [apply list_of_set_NoDup | done |].
    intros t. apply list_of_set_elem. }
  split; [|split; [|split]].
  - intros t Ht. apply subseteq_take in Ht.
    by apply (proj1 (list_of_set_elem _ _)) in Ht.
  - by rewrite length_take, Hperm.
  - intros Hle. rewrite take_ge; [done|]. by rewrite Hperm.
  - rewrite <- length_zero_iff_nil, length_take, Hperm.
    unfold triggered_topics, topic_rules.
    destruct (any_tag _ tags), (any_tag _ tags), (any_tag _ tags),
      (bool_decide (s = _)), (bool_decide (a = _));
      (split;
       [ intros Hlen; vm_compute in Hlen;
         first [ discriminate | by repeat constructor ]
       | intros Hall; repeat (apply Forall_cons in Hall as [? Hall]);
         by simplify_eq/= ]).
Qed.

Lemma X_topics_are_triggered_witness :
  ∃ topics,
    generate_related_topics (O := reverse_order) [py "park"]
      (<["setting" := py "indoor"]> default_context) = Ok topics ∧
    topics ⊆ triggered_topics [py "park"] (py "indoor") (py "unknown") ∧
    length topics
    = min 5 (length (triggered_topics [py "park"] (py "indoor")
                       (py "unknown"))) ∧
    (length (triggered_topics [py "park"] (py "indoor") (py "unknown")) ≤ 5 →
     topics ≡ₚ triggered_topics [py "park"] (py "indoor") (py "unknown")) ∧
    (topics = [] ↔
     Forall (λ rule, rule.1 = false)
            (topic_rules [py "park"] (py "indoor") (py "unknown"))).
Proof.
  apply (X_topics_are_triggered (O := reverse_order) [py "park"]
           (<["setting" := py "indoor"]> default_context)
           (py "indoor") (py "unknown")); reflexivity.
Defined.

(** ** Completeness of the scan *)

Section scan_complete.
Context `{U : Unicode}.
Context (alts : list pystr).
Context (Hne : ∀ w, w ∈ alts → w ≠ []).
Context (Hprefix : ∀ w t r, w ∈ alts → t ∈ alts → t = w ++ r → r = []).
Context (Hsafe : ∀ w consumed p x rest t,
           w ∈ alts → w = consumed ++ x :: rest → last consumed = Some p →
           Re.at_boundary (Some p) (Some x) = true →
           t ∈ alts → head t ≠ Some x).

Lemma match_here_found (prev : option N) (text t : pystr) :
  t ∈ alts → Re.match_alt prev text t = true →
  Re.match_here alts prev text = Some t.
Proof.
  intros Ht Hm. unfold Re.match_here.
  destruct (List.find _ alts) as [w|] eqn:Hw.
  - apply find_some in Hw as [Hw Hmw]. apply list_elem_of_In in Hw.
    f_equal. unfold Re.match_alt in Hm, Hmw.
    apply andb_true_iff in Hm as [Hm _].
    apply andb_true_iff in Hm as [[rt Hrt]%starts_with_spec _].
    apply andb_true_iff in Hmw as [Hmw _].
    apply andb_true_iff in Hmw as [[rw Hrw]%starts_with_spec _].
    rewrite Hrt in Hrw.
    apply app_eq_inv in Hrw as [(k & Hk & _) | (k & Hk & _)].
    + assert (k = []) as -> by (by eapply (Hprefix w t)).
      by rewrite app_nil_r in Hk.
    + assert (k = []) as -> by (by eapply (Hprefix t w)).
      by rewrite app_nil_r in Hk.
  - apply find_none with (x := t) in Hw; [congruence|].
    by apply list_elem_of_In.
Qed.

Lemma scan_complete (t post : pystr) :
  t ∈ alts →
  ∀ pre prev skip,
    inside_match alts prev (pre ++ t ++ post) skip →
    Re.at_boundary (Re.last_of prev pre) (head (t ++ post)) = true →
    Re.at_boundary (Re.last_of prev (pre ++ t)) (head post) = true →
    t ∈ Re.scan alts prev (pre ++ t ++ post) skip.
Proof.
  intros Ht. pose proof (Hne t Ht) as Htne.
  destruct t as [|x t']; [done|].
  induction pre as [|c pre IH]; intros prev skip Hin Hb1 Hb2.
  - cbn [app] in *. destruct skip as [|k].
    + simpl.
      rewrite (match_here_found prev (x :: t' ++ post) (x :: t'));
        [by left | done |].
      unfold Re.match_alt. rewrite !andb_true_iff. split; [split|].
      * apply starts_with_spec. by exists post.
      * exact Hb1.
      * change (x :: t' ++ post) with ((x :: t') ++ post).
        rewrite drop_app_length. exact Hb2.
    + destruct Hin as [? | (w & consumed & p & Hw & Heq & Hlast & ->)];
        [done|].
      simpl in Heq. exfalso.
      by eapply (Hsafe w consumed p x _ (x :: t')).
  - cbn [app]. simpl. rewrite last_of_cons in Hb1.
    change (c :: pre ++ x :: t') with ((c :: pre) ++ x :: t') in Hb2.
    change ((c :: pre) ++ x :: t') with (c :: (pre ++ x :: t')) in Hb2.
    rewrite last_of_cons in Hb2.
    destruct skip as [|k].
    + destruct (Re.match_here alts prev _) as [w|] eqn:Hm.
      * apply elem_of_cons. right. apply IH; [|done..].
        apply find_some in Hm as [Hw Hmw]. apply list_elem_of_In in Hw.
        unfold Re.match_alt in Hmw.
        apply andb_true_iff in Hmw as [Hmw _].
        apply andb_true_iff in Hmw as [[r Hr]%starts_with_spec _].
        pose proof (Hne w Hw) as Hwne.
        destruct w as [|c' w']; [done|].
        injection Hr as -> Hr.
        right. exists (c' :: w'), [c'], c'. simpl.
        rewrite Nat.sub_0_r, Hr, take_app_length. done.
      * apply IH; [by left | done..].
    + apply IH; [|done..].
      destruct Hin as [? | (w & consumed & p & Hw & Heq & Hlast & ->)];
        [done|].
      right. exists w, (consumed ++ [c]), c.
      split; [done|]. split; [|split; [apply last_snoc | done]].
      by rewrite <- app_assoc.
Qed.

Lemma findall_complete (t text : pystr) :
  t ∈ alts → word_bounded_in t text → t ∈ Re.findall alts text.
Proof.
  intros Ht (pre & post & -> & Hb1 & Hb2). unfold Re.findall.
  apply scan_complete; [done | by left | by rewrite last_of_None ..].
Qed.
End scan_complete.

Lemma tag_patterns_separated :
  Forall (λ '(_, alts), separated alts = true) tag_patterns.
Proof. unfold tag_patterns. repeat constructor; vm_compute; reflexivity. Qed.

Section separated_facts.
Context `{U : Unicode} (alts : list pystr).
Context (Hsep : separated alts = true).

Lemma separated_parts :
  ascii_words alts = true ∧ prefix_free alts = true
  ∧ boundary_safe alts = true.
Proof.
  unfold separated in Hsep.
  apply andb_true_iff in Hsep as [[? ?]%andb_true_iff ?]. done.
Qed.

Lemma separated_ascii (w : pystr) : w ∈ alts → w ≠ [] ∧ is_ascii w.
Proof.
  intros Hw. destruct separated_parts as (Ha & _ & _).
  unfold ascii_words in Ha. rewrite forallb_forall in Ha.
  apply list_elem_of_In, Ha, andb_true_iff in Hw as [Hne Hasc].
  split; [|by apply is_ascii_check].
  apply negb_true_iff, bool_decide_eq_false in Hne. done.
Qed.

Lemma separated_prefix (w t r : pystr) :
  w ∈ alts → t ∈ alts → t = w ++ r → r = [].
Proof.
  intros Hw Ht ->. destruct separated_parts as (_ & Hp & _).
  unfold prefix_free in Hp. rewrite forallb_forall in Hp.
  apply list_elem_of_In, Hp in Hw. rewrite forallb_forall in Hw.
  apply list_elem_of_In, Hw, orb_true_iff in Ht as [Hns | Hlen].
  - apply negb_true_iff in Hns.
    assert (starts_with (w ++ r) w = true) as Hs
      by (apply starts_with_spec; eauto). congruence.
  - apply Nat.eqb_eq in Hlen. rewrite length_app in Hlen.
    apply nil_length_inv. lia.
Qed.

Lemma separated_safe (w consumed : pystr) (p x : N) (rest t : pystr) :
  w ∈ alts → w = consumed ++ x :: rest → last consumed = Some p →
  Re.at_boundary (Some p) (Some x) = true →
  t ∈ alts → head t ≠ Some x.
Proof.
  intros Hw Heq Hlast Hb Ht. destruct separated_parts as (_ & _ & Hs).
  destruct (separated_ascii w Hw) as [_ Hasc].
  apply last_Some in Hlast as [c' ->].
  rewrite <- app_assoc in Heq. cbn [app] in Heq.
  assert (w !! length c' = Some p) as Hp
    by (rewrite Heq; apply list_lookup_middle; done).
  assert (w !! S (length c') = Some x) as Hx.
  { rewrite Heq, lookup_app_r by lia.
    by replace (S (length c') - length c') with 1 by lia. }
  assert ((p < 128)%N ∧ (x < 128)%N) as [Hpa Hxa].
  { unfold is_ascii in Hasc. rewrite Forall_forall in Hasc.
    split; apply Hasc; eapply list_elem_of_lookup_2; eauto. }
  unfold Re.at_boundary in Hb. simpl in Hb.
  rewrite (is_word_ascii p), (is_word_ascii x) in Hb by done.
  unfold boundary_safe in Hs. rewrite forallb_forall in Hs.
  apply list_elem_of_In, Hs in Hw. rewrite forallb_forall in Hw.
  assert (boundary_safe_at alts w (length c') = true) as Hat.
  { apply Hw, in_seq. apply lookup_lt_Some in Hp. lia. }
  unfold boundary_safe_at in Hat. rewrite Hp, Hx, Hb in Hat.
  simpl in Hat. rewrite forallb_forall in Hat.
  apply list_elem_of_In, Hat, negb_true_iff, bool_decide_eq_false in Ht.
  done.
Qed.
End separated_facts.

Lemma collect_tags_complete `{U : Unicode} (text t : pystr) :
  t ∈ vocabulary → word_bounded_in t text → t ∈ collect_tags text.
Proof.
  intros Hv Hb. unfold vocabulary in Hv.
  apply list_elem_of_join in Hv as (alts & Ht & Halts).
  apply list_elem_of_fmap in Halts as ([category alts'] & -> & Hin).
  simpl in Ht. rewrite collect_tags_bind. apply list_elem_of_bind.
  exists (category, alts'). split; [|done].
  pose proof tag_patterns_separated as Hsep.
  rewrite Forall_forall in Hsep. specialize (Hsep _ Hin). simpl in Hsep.
  apply findall_complete; [| | |done..].
  - intros w Hw. by apply (separated_ascii alts' Hsep).
  - by apply separated_prefix.
  - by apply separated_safe.
Qed.

Lemma extract_tags_elem `{U : Unicode} `{O : SetOrder}
    (caption t : pystr) :
  t ∈ extract_tags_from_caption caption ↔
  t ∈ vocabulary ∧ word_bounded_in t (str_lower caption).
Proof.
  unfold extract_tags_from_caption. rewrite list_of_set_elem. split.
  - apply collect_tags_sound.
  - intros [Hv Hb]. by apply collect_tags_complete.
Qed.

(** ** The success path *)

Lemma analyze_scene_context_lookup `{U : Unicode} (caption : pystr)
    (field : string) :
  field ∈ fst <$> field_domains →
  is_Some (analyze_scene_context caption !! field).
Proof.
  intros Hf. apply elem_of_dom.
  destruct (analyze_scene_context_wf caption) as [-> _].
  by apply elem_of_list_to_set.
Qed.

Lemma pipeline_description_ok `{U : Unicode} (caption : pystr)
    (tags : list pystr) :
  ∃ description,
    create_ai_description caption (analyze_scene_context caption) tags
    = Ok description.
Proof.
  pose proof (create_ai_description_first_missing caption
                (analyze_scene_context caption) tags) as Hk.
  unfold first_missing, description_keys in Hk. cbn [List.find] in Hk.
  destruct (analyze_scene_context_lookup caption "setting") as [s Hs];
    [unfold field_domains; set_solver|].
  destruct (analyze_scene_context_lookup caption "time_of_day") as [t Ht];
    [unfold field_domains; set_solver|].
  destruct (analyze_scene_context_lookup caption "activity_level")
    as [a Ha]; [unfold field_domains; set_solver|].
  destruct (analyze_scene_context_lookup caption "social_context")
    as [c Hc]; [unfold field_domains; set_solver|].
  rewrite Hs, Ht, Ha, Hc in Hk. exact Hk.
Qed.

Lemma pipeline_topics_ok `{U : Unicode} `{O : SetOrder} (caption : pystr)
    (tags : list pystr) :
  ∃ topics,
    generate_related_topics tags (analyze_scene_context caption) = Ok topics.
Proof.
  pose proof (generate_related_topics_first_missing tags (analyze_scene_context caption))
    as Hk.
  unfold first_missing, topic_keys in Hk. cbn [List.find] in Hk.
  destruct (analyze_scene_context_lookup caption "setting") as [s Hs];
    [unfold field_domains; set_solver|].
  destruct (analyze_scene_context_lookup caption "activity_level")
    as [a Ha]; [unfold field_domains; set_solver|].
  rewrite Hs, Ha in Hk. exact Hk.
Qed.

Section success.
Context `{U : Unicode} `{O : SetOrder} {tensor : Type} (W : World tensor).

(** The [try] body once the upstream calls have succeeded. *)
Lemma process_image_after_upstream (image_path : pystr) (img : image)
    (standard detailed description : pystr) (topics : list pystr)
    (log : list call) :
  upstream W image_path = Ok (img, standard, detailed) →
  create_ai_description standard (analyze_scene_context standard)
    (extract_tags_from_caption standard) = Ok description →
  generate_related_topics (extract_tags_from_caption standard)
    (analyze_scene_context standard) = Ok topics →
  process_image W image_path log
  = if ((image_size img).2 =? 0)%Z
    then (Raise ZeroDivisionError,
          log ++ [ExtractTags; AnalyzeSceneContext; CreateAiDescription])
    else (Ok (full_record W image_path img standard detailed description
                topics),
          log ++ pipeline_calls).
Proof.
  unfold upstream, process_image. intros Hup Hd Ht.
  destruct (image_open W image_path) as [image|e1]; [|done].
  rewrite bind_extern_ok. cbn [mbind result_bind] in Hup.
  destruct (image_size image) as [width height] eqn:Hsize.
  destruct (processor W image) as [inputs|e2]; [|done].
  rewrite bind_extern_ok. cbn [mbind result_bind] in Hup.
  destruct (generate W StandardConfig inputs) as [out|e3]; [|done].
  rewrite bind_extern_ok. cbn [mbind result_bind] in Hup.
  destruct (decode W out) as [standard'|e4]; [|done].
  rewrite bind_extern_ok. cbn [mbind result_bind] in Hup.
  destruct (generate W DetailedConfig inputs) as [out'|e5]; [|done].
  rewrite bind_extern_ok. cbn [mbind result_bind] in Hup.
  destruct (decode W out') as [detailed'|e6]; [|done].
  rewrite bind_extern_ok. cbn [mbind result_bind] in Hup.
  injection Hup as -> -> ->.
  rewrite !bind_invoke, Hd. rewrite Hsize. cbn [snd].
  unfold aspect_ratio. destruct (height =? 0)%Z.
  - rewrite bind_extern_raise. by rewrite <- !app_assoc.
  - rewrite bind_extern_ok, bind_invoke, Ht.
    unfold full_record, pipeline_calls. rewrite Hsize.
    by rewrite <- !app_assoc.
Qed.
End success.

(** X8: when the upstream calls succeed and the image height is not zero,
    the orchestrator returns the full record, built from the standard
    caption, and invokes the four pipeline methods once each, in order; the
    description and the topics cannot fail on the inferred context. *)
Theorem X_success_record `{U : Unicode} `{O : SetOrder} {tensor : Type}
    (W : World tensor) (image_path : pystr) (img : image)
    (standard detailed : pystr) (log : list call) :
  upstream W image_path = Ok (img, standard, detailed) →
  (image_size img).2 ≠ 0%Z →
  ∃ description topics,
    create_ai_description standard (analyze_scene_context standard)
      (extract_tags_from_caption standard) = Ok description ∧
    generate_related_topics (extract_tags_from_caption standard)
      (analyze_scene_context standard) = Ok topics ∧
    generate_ai_optimized_description W image_path log
    = (Ok (full_record W image_path img standard detailed description
             topics),
       log ++ pipeline_calls).
Proof.
  intros Hup Hh.
  destruct (pipeline_description_ok standard
              (extract_tags_from_caption standard)) as [description Hd].
  destruct (pipeline_topics_ok standard
              (extract_tags_from_caption standard)) as [topics Ht].
  exists description, topics. split; [done|]. split; [done|].
  unfold generate_ai_optimized_description, try_except.
  rewrite (process_image_after_upstream W image_path img standard detailed
             description topics log Hup Hd Ht).
  apply Z.eqb_neq in Hh. by rewrite Hh.
Qed.

Lemma X_success_record_witness :
  ∃ description topics,
    create_ai_description (py "a man running in a park")
      (analyze_scene_context (U := ascii_unicode)
         (py "a man running in a park"))
      (extract_tags_from_caption (U := ascii_unicode) (O := insertion_order)
         (py "a man running in a park")) = Ok description ∧
    generate_related_topics (O := insertion_order)
      (extract_tags_from_caption (U := ascii_unicode) (O := insertion_order)
         (py "a man running in a park"))
      (analyze_scene_context (U := ascii_unicode)
         (py "a man running in a park")) = Ok topics ∧
    generate_ai_optimized_description (U := ascii_unicode)
      (O := insertion_order) (working_world (py "a man running in a park"))
      (py "data/park.jpg") []
    = (Ok (full_record (U := ascii_unicode) (O := insertion_order)
             (working_world (py "a man running in a park"))
             (py "data/park.jpg") (Image (640%Z, 480%Z) None)
             (py "a man running in a park") (py "a man running in a park")
             description topics),
       [] ++ pipeline_calls).
Proof.
  apply (X_success_record (U := ascii_unicode) (O := insertion_order)
           (working_world (py "a man running in a park"))
           (py "data/park.jpg") (Image (640%Z, 480%Z) None)
           (py "a man running in a park") (py "a man running in a park") []).
  - reflexivity.
  - simpl. lia.
Defined.

(** X9: when the upstream calls succeed but the image height is zero, the
    division for the aspect ratio raises inside the [try], after tag
    extraction, context inference and synthesis have run and before topic
    recommendation; the [except] block prints
    "Error processing <path>: division by zero" and, when that succeeds,
    the orchestrator returns the error record with the message
    "division by zero"; when the [print] raises, its exception leaves the
    orchestrator instead. *)
Theorem X_zero_height_error_record `{U : Unicode} `{O : SetOrder}
    {tensor : Type} (W : World tensor) (image_path : pystr) (img : image)
    (standard detailed : pystr) (log : list call) :
  upstream W image_path = Ok (img, standard, detailed) →
  (image_size img).2 = 0%Z →
  generate_ai_optimized_description W image_path log
  = match print W (py "Error processing " ++ image_path
                   ++ py ": division by zero") with
    | Ok _ =>
        (Ok (error_record W image_path ZeroDivisionError),
         log ++ [ExtractTags; AnalyzeSceneContext; CreateAiDescription])
    | Raise e =>
        (Raise e,
         log ++ [ExtractTags; AnalyzeSceneContext; CreateAiDescription])
    end ∧
  error_record W image_path ZeroDivisionError !! "error"
  = Some (VStr (py "division by zero")).
Proof.
  intros Hup Hh. split; [|reflexivity].
  destruct (pipeline_description_ok standard
              (extract_tags_from_caption standard)) as [description Hd].
  destruct (pipeline_topics_ok standard
              (extract_tags_from_caption standard)) as [topics Ht].
  pose proof (process_image_after_upstream W image_path img standard
                detailed description topics log Hup Hd Ht) as Hbody.
  rewrite Hh in Hbody. cbn [Z.eqb] in Hbody.
  by rewrite (generate_caught W image_path ZeroDivisionError log _ Hbody).
Qed.

Lemma X_zero_height_error_record_witness :
  generate_ai_optimized_description (U := ascii_unicode)
    (O := insertion_order)
    {| image_open := λ _, Ok (Image (640%Z, 0%Z) None);
       processor := λ _, Ok ();
       generate := λ _ _, Ok ();
       decode := λ _, Ok (py "a man");
       device := py "cpu";
       basename := posix_basename;
       now_isoformat := py "2024-01-01T00:00:00";
       print := λ _, Ok () |}
    (py "flat.png") []
  = (Ok (error_record
           {| image_open := λ _, Ok (Image (640%Z, 0%Z) None);
              processor := λ _, Ok ();
              generate := λ _ _, Ok ();
              decode := λ _, Ok (py "a man");
              device := py "cpu";
              basename := posix_basename;
              now_isoformat := py "2024-01-01T00:00:00";
              print := λ _, Ok () |}
           (py "flat.png") ZeroDivisionError),
     [] ++ [ExtractTags; AnalyzeSceneContext; CreateAiDescription]).
Proof.
  refine (proj1 (X_zero_height_error_record (U := ascii_unicode)
           (O := insertion_order) _ (py "flat.png")
           (Image (640%Z, 0%Z) None) (py "a man") (py "a man") [] _ _));
    reflexivity.
Defined.

(** X10: an exception leaves the orchestrator in two ways only.  Either it
    is not an [Exception] (a [KeyboardInterrupt], say), it was raised by an
    upstream call and no pipeline method has run; or the [try] body raised
    an [Exception], the [except] block caught it, and the exception that
    leaves is the one raised by the [print] of the error line. *)
Theorem X_escaping_exceptions `{U : Unicode} `{O : SetOrder}
    {tensor : Type} (W : World tensor) (image_path : pystr) (e : exn)
    (log log' : list call) :
  generate_ai_optimized_description W image_path log = (Raise e, log') →
  (exn_is_exception e = false ∧ upstream W image_path = Raise e ∧
   log' = log) ∨
  (∃ caught,
     process_image W image_path log = (Raise caught, log') ∧
     exn_is_exception caught = true ∧
     print W (py "Error processing " ++ image_path ++ py ": "
              ++ exn_str caught) = Raise e).
Proof.
  destruct (upstream W image_path) as [[[img standard] detailed]|e0] eqn:Hup.
  - destruct (pipeline_description_ok standard
                (extract_tags_from_caption standard)) as [description Hd].
    destruct (pipeline_topics_ok standard
                (extract_tags_from_caption standard)) as [topics Ht].
    pose proof (process_image_after_upstream W image_path img standard
                  detailed description topics log Hup Hd Ht) as Hbody.
    destruct (_ =? _)%Z.
    + rewrite (generate_caught W image_path ZeroDivisionError log _ Hbody)
        by done.
      destruct (print W _) as [[]|e'] eqn:Hp; [done|].
      intros [= <- <-]. right. by exists ZeroDivisionError.
    + unfold generate_ai_optimized_description, try_except.
      by rewrite Hbody.
  - pose proof (process_image_upstream_raise W image_path e0 log Hup)
      as Hbody.
    destruct (exn_is_exception e0) eqn:He.
    + rewrite (generate_caught W image_path e0 log _ Hbody) by done.
      destruct (print W _) as [[]|e'] eqn:Hp; [done|].
      intros [= <- <-]. right. by exists e0.
    + unfold generate_ai_optimized_description, try_except.
      rewrite Hbody, He. intros [= <- <-]. by left.
Qed.

Lemma X_escaping_exceptions_witness :
  (exn_is_exception
     (Exn "ValueError" true (py "I/O operation on closed file.")) = false ∧
   upstream closed_stdout_world (py "x.jpg")
   = Raise (Exn "ValueError" true (py "I/O operation on closed file.")) ∧
   @nil call = []) ∨
  (∃ caught,
     process_image (U := ascii_unicode) (O := insertion_order)
       closed_stdout_world (py "x.jpg") []
     = (Raise caught, []) ∧
     exn_is_exception caught = true ∧
     print closed_stdout_world
       (py "Error processing " ++ py "x.jpg" ++ py ": " ++ exn_str caught)
     = Raise (Exn "ValueError" true (py "I/O operation on closed file."))).
Proof.
  apply (X_escaping_exceptions (U := ascii_unicode)
           (O := insertion_order) closed_stdout_world (py "x.jpg")
           (Exn "ValueError" true (py "I/O operation on closed file."))
           [] []).
  reflexivity.
Defined.

(** ** Sorting *)

Lemma str_le_total (a b : pystr) : str_le a b = true ∨ str_le b a = true.
Proof.
  revert b. induction a as [|x a IH]; intros [|y b]; simpl; auto.
  destruct (N.lt_trichotomy x y) as [Hlt | [-> | Hgt]].
  - left. apply orb_true_iff. left. by apply N.ltb_lt.
  - rewrite N.ltb_irrefl, N.eqb_refl. simpl. apply IH.
  - right. apply orb_true_iff. left. by apply N.ltb_lt.
Qed.

Lemma insert_sorted_perm (x : pystr) (l : list pystr) :
  insert_sorted x l ≡ₚ x :: l.
Proof.
  induction l as [|y l IH]; [done|]. simpl.
  destruct (str_le x y); [done|]. rewrite IH. apply perm_swap.
Qed.

Lemma sorted_perm (l : list pystr) : sorted l ≡ₚ l.
Proof.
  unfold sorted. induction l as [|x l IH]; [done|]. simpl.
  by rewrite insert_sorted_perm, IH.
Qed.

Lemma insert_sorted_ascending (x : pystr) (l : list pystr) :
  str_ascending l → str_ascending (insert_sorted x l).
Proof.
  unfold str_ascending. induction 1 as [|y l Hl IH Hhd]; simpl.
  - by repeat constructor.
  - destruct (str_le x y) eqn:Hxy.
    + constructor; [by constructor | by constructor].
    + constructor; [done|].
      destruct l as [|z l]; simpl in *.
      * constructor. destruct (str_le_total x y); congruence.
      * destruct (str_le x z); constructor.
        -- destruct (str_le_total x y); congruence.
        -- by inversion Hhd.
Qed.

Lemma sorted_ascending (l : list pystr) : str_ascending (sorted l).
Proof.
  unfold sorted. induction l as [|x l IH]; simpl.
  - constructor.
  - by apply insert_sorted_ascending.
Qed.

(** X12: the "tags" field of the full record lists, in ascending order and
    without repetition, exactly the vocabulary terms that occur in the
    lower-cased standard caption between word boundaries. *)
Theorem X_record_tags_sorted `{U : Unicode} `{O : SetOrder} {tensor : Type}
    (W : World tensor) (image_path : pystr) (img : image)
    (standard detailed description : pystr) (topics : list pystr) :
  ∃ tags,
    full_record W image_path img standard detailed description topics
      !! "tags" = Some (str_list tags) ∧
    str_ascending tags ∧ NoDup tags ∧
    ∀ t, t ∈ tags ↔ t ∈ vocabulary ∧ word_bounded_in t (str_lower standard).
Proof.
  exists (sorted (extract_tags_from_caption standard)).
  split; [reflexivity|]. split; [apply sorted_ascending|]. split.
  - rewrite sorted_perm. apply list_of_set_NoDup.
  - intros t. rewrite sorted_perm. apply extract_tags_elem.
Qed.

Lemma related_topics_bound `{O : SetOrder} (tags : list pystr)
    (context : gmap string pystr) (topics : list pystr) :
  generate_related_topics tags context = Ok topics →
  length topics ≤ 5 ∧ NoDup topics.
Proof.
  unfold generate_related_topics, getitem.
  destruct (context !! "setting") as [s|]; [|done].
  destruct (context !! "activity_level") as [a|]; [|done].
  cbn beta iota delta [mbind result_bind mret result_ret].
  intros [= <-]. split.
  - rewrite length_take. lia.
  - eapply sublist_NoDup; [apply list_of_set_NoDup | apply sublist_take].
Qed.

Section outcomes.
Context `{U : Unicode} `{O : SetOrder} {tensor : Type} (W : World tensor).

(** The four ways a call of the orchestrator can end. *)
Lemma generate_outcomes (image_path : pystr) (log : list call) :
  (∃ img standard detailed description topics,
     upstream W image_path = Ok (img, standard, detailed) ∧
     (image_size img).2 ≠ 0%Z ∧
     create_ai_description standard (analyze_scene_context standard)
       (extract_tags_from_caption standard) = Ok description ∧
     generate_related_topics (extract_tags_from_caption standard)
       (analyze_scene_context standard) = Ok topics ∧
     generate_ai_optimized_description W image_path log
     = (Ok (full_record W image_path img standard detailed description
              topics), log ++ pipeline_calls)) ∨
  (∃ e log',
     generate_ai_optimized_description W image_path log
     = (Ok (error_record W image_path e), log')) ∨
  (∃ e,
     exn_is_exception e = false ∧ upstream W image_path = Raise e ∧
     generate_ai_optimized_description W image_path log = (Raise e, log)) ∨
  (∃ caught e log',
     process_image W image_path log = (Raise caught, log') ∧
     exn_is_exception caught = true ∧
     print W (error_line image_path caught) = Raise e ∧
     generate_ai_optimized_description W image_path log = (Raise e, log')).
Proof.
  destruct (upstream W image_path) as [[[img standard] detailed]|e0] eqn:Hup.
  - destruct (pipeline_description_ok standard
                (extract_tags_from_caption standard)) as [description Hd].
    destruct (pipeline_topics_ok standard
                (extract_tags_from_caption standard)) as [topics Ht].
    pose proof (process_image_after_upstream W image_path img standard
                  detailed description topics log Hup Hd Ht) as Hbody.
    destruct (_ =? _)%Z eqn:Hh.
    + right.
      pose proof (generate_caught W image_path ZeroDivisionError log _
                    Hbody eq_refl) as Hgen.
      destruct (print W _) as [[]|e'] eqn:Hp.
      * left. by eexists _, _.
      * right. right. by eexists ZeroDivisionError, e', _.
    + left. apply Z.eqb_neq in Hh.
      exists img, standard, detailed, description, topics.
      repeat split; try done.
      unfold generate_ai_optimized_description, try_except.
      by rewrite Hbody.
  - pose proof (process_image_upstream_raise W image_path e0 log Hup)
      as Hbody.
    destruct (exn_is_exception e0) eqn:He.
    + right.
      pose proof (generate_caught W image_path e0 log _ Hbody He) as Hgen.
      destruct (print W _) as [[]|e'] eqn:Hp.
      * left. by eexists _, _.
      * right. right. by eexists e0, e', _.
    + right. right. left. exists e0. repeat split; try done.
      unfold generate_ai_optimized_description, try_except.
      by rewrite Hbody, He.
Qed.
End outcomes.

(** X11: every record the orchestrator returns, full or error, carries the
    file name, the timestamp, a description, tags, a scene context and at
    most five distinct related topics; it has either no "error" key and two
    captions, or an "error" key and no caption. *)
Theorem X_record_common_fields `{U : Unicode} `{O : SetOrder}
    {tensor : Type} (W : World tensor) (image_path : pystr)
    (log log' : list call) (record : gmap string pyval) :
  generate_ai_optimized_description W image_path log = (Ok record, log') →
  record !! "filename" = Some (VStr (basename W image_path)) ∧
  record !! "timestamp" = Some (VStr (now_isoformat W)) ∧
  (∃ description, record !! "ai_description" = Some (VStr description)) ∧
  (∃ tags, record !! "tags" = Some (str_list tags)) ∧
  (∃ context, record !! "scene_context" = Some (str_dict context)) ∧
  (∃ topics, record !! "related_topics" = Some (str_list topics) ∧
             length topics ≤ 5 ∧ NoDup topics) ∧
  ((record !! "error" = None ∧
    ∃ c1 c2, record !! "captions" = Some (VList [c1; c2])) ∨
   (is_Some (record !! "error") ∧ record !! "captions" = Some (VList []))).
Proof.
  intros Hgen.
  destruct (generate_outcomes W image_path log)
    as [(img & standard & detailed & description & topics & _ & _ & _
         & Ht & Hok)
       | [(e & log'' & Herr)
         | [(e & _ & _ & Hraise) | (caught & e & log'' & _ & _ & _ & Hraise)]]];
    [| |congruence..].
  - rewrite Hok in Hgen. injection Hgen as <- <-.
    apply related_topics_bound in Ht as [Hlen Hnd].
    split_and!; [reflexivity | reflexivity | by eexists | by eexists
                | by eexists | by exists topics |].
    left. split; [reflexivity|]. by eexists _, _.
  - rewrite Herr in Hgen. injection Hgen as <- <-.
    split_and!; [reflexivity | reflexivity | by eexists | by exists [] | | |].
    + exists ∅. unfold str_dict. by rewrite fmap_empty.
    + exists (py <$> ["image analysis"; "technical support"]).
      split; [reflexivity|]. split; [simpl; lia|].
      apply (bool_decide_unpack _). vm_compute. exact I.
    + right. split; [by eexists | reflexivity].
Qed.

Section records.
Context `{U : Unicode} `{O : SetOrder} {tensor : Type} (W : World tensor).

Lemma full_record_no_error (image_path : pystr) (img : image)
    (standard detailed description : pystr) (topics : list pystr) :
  full_record W image_path img standard detailed description topics
    !! "error" = None.
Proof. unfold full_record. map_lookup. done. Qed.

Lemma caption_entry_text (type : string) (text : pystr) (confidence : string)
    (default : pyval) :
  value_get (caption_entry type text confidence) "text" default
  = Ok (VStr text).
Proof. reflexivity. Qed.

Lemma full_record_captions (image_path : pystr) (img : image)
    (standard detailed description : pystr) (topics : list pystr) :
  full_record W image_path img standard detailed description topics
    !! "captions"
  = Some (VList [caption_entry "standard" standard "0.85";
                 caption_entry "detailed" detailed "0.80"]).
Proof. unfold full_record. map_lookup. done. Qed.

Lemma full_record_first_caption (image_path : pystr) (img : image)
    (standard detailed description : pystr) (topics : list pystr) :
  first_caption_text
    (full_record W image_path img standard detailed description topics)
  = Ok (VStr standard).
Proof.
  unfold first_caption_text, dict_get. rewrite full_record_captions.
  cbn [first_item mbind result_bind].
  apply caption_entry_text.
Qed.
Lemma error_record_first_caption (image_path : pystr) (e : exn) :
  first_caption_text (error_record W image_path e)
  = Raise (IndexError "list index out of range").
Proof. reflexivity. Qed.

Lemma image_to_caption_unfold (image_path : pystr) (log : list call) :
  image_to_caption W image_path log
  = match generate_ai_optimized_description W image_path log with
    | (Ok res, log') => (first_caption_text res, log')
    | (Raise e, log') => (Raise e, log')
    end.
Proof. reflexivity. Qed.
End records.

(** X13: [image_to_caption] returns a value exactly when the upstream calls
    succeed on an image of non-zero height, and the value is then the
    standard caption; its fallback string is never returned. *)
Theorem X_image_to_caption_returns_standard `{U : Unicode} `{O : SetOrder}
    {tensor : Type} (W : World tensor) (image_path : pystr)
    (log log' : list call) (v : pyval) :
  image_to_caption W image_path log = (Ok v, log') ↔
  ∃ img standard detailed,
    upstream W image_path = Ok (img, standard, detailed) ∧
    (image_size img).2 ≠ 0%Z ∧
    v = VStr standard ∧ log' = log ++ pipeline_calls.
Proof.
  rewrite image_to_caption_unfold.
  destruct (generate_outcomes W image_path log)
    as [(img & standard & detailed & description & topics & Hup & Hh & _
         & _ & Hok)
       | [(e & log'' & Herr)
         | [(e & He & Hup & Hraise)
           | (caught & e & log'' & Hbody & _ & _ & Hraise)]]].
  - rewrite Hok, full_record_first_caption. split.
    + intros [= <- <-]. by exists img, standard, detailed.
    + intros (img' & standard' & detailed' & Hup' & _ & -> & ->).
      rewrite Hup in Hup'. by injection Hup' as <- <- <-.
  - rewrite Herr, error_record_first_caption. split; [done|].
    intros (img & standard & detailed & Hup & Hh & -> & ->). exfalso.
    destruct (pipeline_description_ok standard
                (extract_tags_from_caption standard)) as [description Hd].
    destruct (pipeline_topics_ok standard
                (extract_tags_from_caption standard)) as [topics Ht].
    unfold generate_ai_optimized_description, try_except in Herr.
    rewrite (process_image_after_upstream W image_path img standard detailed
               description topics log Hup Hd Ht) in Herr.
    apply Z.eqb_neq in Hh. rewrite Hh in Herr.
    apply (f_equal (λ x : result (gmap string pyval) * list call,
                      match x.1 with
                      | Ok r => r !! "error"
                      | Raise _ => None
                      end)) in Herr.
    cbn beta iota delta [fst] in Herr.
    rewrite full_record_no_error in Herr. discriminate.
  - rewrite Hraise. split; [done|].
    intros (img & standard & detailed & Hup' & _). congruence.
  - rewrite Hraise. split; [done|].
    intros (img & standard & detailed & Hup & Hh & _). exfalso.
    destruct (pipeline_description_ok standard
                (extract_tags_from_caption standard)) as [description Hd].
    destruct (pipeline_topics_ok standard
                (extract_tags_from_caption standard)) as [topics Ht].
    rewrite (process_image_after_upstream W image_path img standard detailed
               description topics log Hup Hd Ht) in Hbody.
    apply Z.eqb_neq in Hh. rewrite Hh in Hbody. discriminate.
Qed.

(** ** File names *)

Lemma ends_with_spec (s w : pystr) :
  ends_with s w = true ↔ ∃ pre, s = pre ++ w.
Proof.
  unfold ends_with. rewrite starts_with_spec. split.
  - intros [post Hp]. exists (reverse post).
    apply (inj reverse). by rewrite reverse_app, reverse_involutive.
  - intros [pre ->]. exists (reverse pre). by rewrite reverse_app.
Qed.

Lemma is_image_name_spec `{U : Unicode} (f : pystr) :
  is_image_name f = true ↔
  ∃ stem ext, ext ∈ valid_exts ∧ str_lower f = stem ++ ext.
Proof.
  unfold is_image_name. rewrite existsb_exists. split.
  - intros (ext & Hin & [stem Hs]%ends_with_spec).
    exists stem, ext. split; [by apply list_elem_of_In | done].
  - intros (stem & ext & Hin & Hs). exists ext.
    split; [by apply list_elem_of_In|]. apply ends_with_spec. eauto.
Qed.

Lemma stdlib_filter_sublist {A} (f : A → bool) (l : list A) :
  List.filter f l `sublist_of` l.
Proof.
  induction l as [|x l IH]; simpl; [done|].
  destruct (f x); [by apply sublist_skip | by apply sublist_cons].
Qed.

(** X14: [list_images] passes on the exception of [os.listdir]; otherwise it
    returns, in listing order, the joined paths of exactly those entries
    whose lower-cased name ends in .png, .jpg or .jpeg. *)
Theorem X_list_images_keeps_image_names `{U : Unicode} (FS : FileSystem)
    (folder : pystr) :
  match listdir FS folder with
  | Raise e => list_images FS folder = Raise e
  | Ok names =>
      ∃ kept,
        list_images FS folder = Ok (path_join FS folder <$> kept) ∧
        kept `sublist_of` names ∧
        ∀ f, f ∈ kept ↔
             f ∈ names ∧
             ∃ stem ext, ext ∈ valid_exts ∧ str_lower f = stem ++ ext
  end.
Proof.
  unfold list_images. destruct (listdir FS folder) as [names|e]; [|done].
  exists (List.filter is_image_name names).
  split; [reflexivity|]. split; [apply stdlib_filter_sublist|].
  intros f. rewrite <- is_image_name_spec, !list_elem_of_In.
  apply filter_In.
Qed.

(** ** Paths *)

Lemma basename_step_no_slash (acc f : pystr) :
  47%N ∉ f →
  foldl (λ acc c, if (c =? 47)%N then [] else acc ++ [c]) acc f = acc ++ f.
Proof.
  revert acc. induction f as [|c f IH]; intros acc Hf; simpl.
  - by rewrite app_nil_r.
  - apply not_elem_of_cons in Hf as [Hc Hf].
    destruct (c =? 47)%N eqn:Hc'; [apply N.eqb_eq in Hc'; congruence|].
    rewrite IH by done. by rewrite <- app_assoc.
Qed.

Lemma posix_basename_after_slash (a f : pystr) :
  47%N ∉ f → posix_basename (a ++ [47%N] ++ f) = f.
Proof.
  intros Hf. unfold posix_basename. rewrite !foldl_app. simpl.
  by rewrite basename_step_no_slash.
Qed.

Lemma posix_basename_join (folder f : pystr) :
  47%N ∉ f → posix_basename (posix_join folder f) = f.
Proof.
  intros Hf. unfold posix_join.
  destruct (starts_with f (py "/")) eqn:Hs.
  { apply starts_with_spec in Hs as [post ->]. exfalso. apply Hf.
    by left. }
  destruct (bool_decide (folder = [])) eqn:Hnil; simpl.
  { apply bool_decide_eq_true in Hnil as ->. simpl.
    unfold posix_basename. by rewrite basename_step_no_slash. }
  destruct (ends_with folder (py "/")) eqn:He.
  - apply ends_with_spec in He as [pre ->].
    rewrite <- app_assoc. by apply posix_basename_after_slash.
  - by apply posix_basename_after_slash.
Qed.

(** X15: under POSIX path rules the file name of a record is the directory
    entry it came from: for an entry without "/" (as [os.listdir] returns
    them), the record returned for the path that [list_images] builds has
    that entry as its "filename". *)
Theorem X_filename_is_directory_entry `{U : Unicode} `{O : SetOrder}
    {tensor : Type} (W : World tensor) (FS : FileSystem)
    (folder f : pystr) (log log' : list call)
    (record : gmap string pyval) :
  basename W = posix_basename →
  path_join FS = posix_join →
  47%N ∉ f →
  generate_ai_optimized_description W (path_join FS folder f) log
  = (Ok record, log') →
  record !! "filename" = Some (VStr f).
Proof.
  intros Hb Hj Hf Hgen.
  destruct (generate_outcomes W (path_join FS folder f) log)
    as [(img & standard & detailed & description & topics & _ & _ & _
         & _ & Hok)
       | [(e & log'' & Herr)
         | [(e & _ & _ & Hraise) | (caught & e & log'' & _ & _ & _ & Hraise)]]];
    [| |congruence..].
  - rewrite Hok in Hgen. injection Hgen as <- <-.
    unfold full_record. map_lookup.
    by rewrite Hb, Hj, posix_basename_join.
  - rewrite Herr in Hgen. injection Hgen as <- <-.
    unfold error_record. map_lookup.
    by rewrite Hb, Hj, posix_basename_join.
Qed.

Lemma X_filename_is_directory_entry_witness :
  error_record missing_file_world (posix_join (py "data") (py "x.jpg"))
    (Exn "FileNotFoundError" true (py "file not found")) !! "filename"
  = Some (VStr (py "x.jpg")).
Proof.
  apply (X_filename_is_directory_entry (U := ascii_unicode)
           (O := insertion_order) missing_file_world
           {| listdir := λ _, Ok [py "x.jpg"];
              path_join := posix_join;
              path_dirname := λ p, p;
              path_basename := λ p, p;
              makedirs := λ _, Ok ();
              dump := λ _ _, Ok () |}
           (py "data") (py "x.jpg") [] []).
  - reflexivity.
  - reflexivity.
  - vm_compute. intros Hin.
    repeat (apply elem_of_cons in Hin as [Hin | Hin]; [discriminate|]).
    by apply elem_of_nil in Hin.
  - reflexivity.
Defined.

(** ** The batch script *)

Lemma for_each_raise {A B} (f : A → result B) (l : list A) (e : exn) :
  Forall (λ x, (∃ y, f x = Ok y) ∨ f x = Raise e) l →
  Exists (λ x, f x = Raise e) l →
  for_each f l = Raise e.
Proof.
  induction 1 as [|x l [[y Hy] | Hx] Hall IH]; intros Hex.
  - by apply Exists_nil in Hex.
  - simpl. rewrite Hy. cbn [mbind result_bind].
    apply Exists_cons in Hex as [Hx | Hex]; [congruence|].
    by rewrite IH.
  - simpl. by rewrite Hx.
Qed.

Lemma for_each_ok {A B} (f : A → result B) (g : A → B) (l : list A) :
  Forall (λ x, f x = Ok (g x)) l → for_each f l = Ok (g <$> l).
Proof.
  induction 1 as [|x l Hx Hall IH]; [done|].
  simpl. by rewrite Hx, IH.
Qed.

Section batch.
Context `{U : Unicode} `{O : SetOrder} {tensor : Type}.
Context (C : Console) (FS : FileSystem) (worlds : nat → World tensor)
        (load : result unit).

Lemma simple_entry_full (W : World tensor) (image_path : pystr)
    (img : image) (standard detailed description : pystr)
    (topics : list pystr) :
  simple_entry
    (full_record W image_path img standard detailed description topics)
  = Ok (VDict {[ "filename" := VStr (basename W image_path);
                 "caption" := VStr standard ]}).
Proof.
  unfold simple_entry, record_getitem, first_text, dict_get.
  rewrite full_record_captions.
  assert (full_record W image_path img standard detailed description topics
            !! "filename" = Some (VStr (basename W image_path))) as ->
    by reflexivity.
  cbn [first_item mbind result_bind]. rewrite caption_entry_text.
  reflexivity.
Qed.

Lemma simple_entry_error (W : World tensor) (image_path : pystr) (e : exn) :
  simple_entry (error_record W image_path e)
  = Raise (IndexError "list index out of range").
Proof. reflexivity. Qed.

Lemma get_captioner_ready (st : process_state) :
  captioner_loaded st = true ∨ load = Ok () →
  get_captioner load st = (Ok (), ProcessState true (dirs st) (files st)).
Proof.
  unfold get_captioner. intros [Hl | ->].
  - rewrite Hl. by destruct st as [[] ? ?].
  - by destruct st as [[] ? ?].
Qed.

Lemma io_bind_unfold {A B} (m : io A) (f : A → io B)
    (st : process_state) :
  (m ≫= f) st
  = match m st with
    | (Ok a, st') => f a st'
    | (Raise e, st') => (Raise e, st')
    end.
Proof. reflexivity. Qed.

(** A [print], then the rest. *)
Lemma bind_print_out {A} (line : pystr) (k : io A) (st : process_state) :
  (print_out C line ≫= λ _, k) st
  = match print_line C line with
    | Ok _ => k st
    | Raise e => (Raise e, st)
    end.
Proof.
  rewrite io_bind_unfold. unfold print_out, pure_io.
  by destruct (print_line C line).
Qed.

Lemma bind_pure_io {A B} (r : result A) (k : A → io B)
    (st : process_state) :
  (pure_io r ≫= k) st
  = match r with
    | Ok a => k a st
    | Raise e => (Raise e, st)
    end.
Proof. rewrite io_bind_unfold. unfold pure_io. by destruct r. Qed.

Lemma for_each_join_item (l : list pystr) :
  for_each join_item (VStr <$> l) = Ok l.
Proof.
  induction l as [|s l IH]; [done|].
  cbn [fmap list_fmap for_each join_item mbind result_bind].
  fold (fmap (M := list) VStr l). by rewrite IH.
Qed.

Section open_stdout.
Hypothesis Hprint : ∀ line, print_line C line = Ok ().

Lemma print_out_ok (line : pystr) (st : process_state) :
  print_out C line st = (Ok (), st).
Proof. unfold print_out, pure_io. by rewrite Hprint. Qed.

(** The preview of a record whose description is a string, whose tags
    are strings and which has no chatbot prompts. *)
Lemma show_preview_ok (record : gmap string pyval) (description : pystr)
    (tags : list pystr) (st : process_state) :
  record !! "ai_description" = Some (VStr description) →
  record !! "tags" = Some (str_list tags) →
  record !! "chatbot_prompts" = None →
  show_preview C record st = (Ok (), st).
Proof.
  intros Hd Ht Hp. unfold show_preview, dict_get. rewrite Hd, Ht, Hp.
  rewrite bind_pure_io. cbn [slice_to].
  rewrite bind_print_out, Hprint, bind_pure_io.
  unfold join_slice, str_list. cbn [slice_to mbind result_bind].
  rewrite <- fmap_take, for_each_join_item.
  cbn [mbind result_bind mret result_ret].
  rewrite bind_print_out, Hprint, bind_pure_io.
  cbn [value_get dict_get mbind result_bind slice_to].
  unfold dict_get. rewrite lookup_empty. cbn [slice_to].
  rewrite bind_print_out, Hprint. apply print_out_ok.
Qed.

Lemma show_preview_returned (W : World tensor) (image_path : pystr)
    (log log' : list call) (record : gmap string pyval)
    (st : process_state) :
  generate_ai_optimized_description W image_path log = (Ok record, log') →
  show_preview C record st = (Ok (), st).
Proof.
  intros Hgen.
  destruct (generate_outcomes W image_path log)
    as [(img & standard & detailed & description & topics & _ & _ & _
         & _ & Hok)
       | [(e & log'' & Herr)
         | [(e & _ & _ & Hraise)
           | (caught & e & log'' & _ & _ & _ & Hraise)]]];
    [| |congruence..].
  - rewrite Hok in Hgen. injection Hgen as <- <-.
    apply (show_preview_ok _ description
             (sorted (extract_tags_from_caption standard)));
      unfold full_record; map_lookup; done.
  - rewrite Herr in Hgen. injection Hgen as <- <-.
    by apply (show_preview_ok _
                (py "Unable to process this image. Please try again or use a different image.")
                []).
Qed.

Lemma image_to_ai_description_ready (i : nat) (image_path : pystr)
    (st : process_state) :
  captioner_loaded st = true ∨ load = Ok () →
  returns_record worlds i image_path →
  image_to_ai_description worlds load i image_path st
  = (Ok (record_at worlds i image_path),
     ProcessState true (dirs st) (files st)).
Proof.
  intros Hready Hret. unfold image_to_ai_description.
  rewrite io_bind_unfold, (get_captioner_ready st Hready).
  unfold pure_io. by rewrite Hret.
Qed.

Lemma describe_all_records (total : nat) (images : list pystr) :
  ∀ i st,
    captioner_loaded st = true ∨ load = Ok () →
    (∀ j img, images !! j = Some img → returns_record worlds (i + j) img) →
    describe_all C FS worlds load total i images st
    = (Ok (imap (λ j img, record_at worlds (i + j) img) images),
       match images with
       | [] => st
       | _ :: _ => ProcessState true (dirs st) (files st)
       end).
Proof.
  induction images as [|img images IH]; intros i st Hready Hret; [done|].
  cbn [describe_all]. cbv zeta. rewrite bind_print_out, Hprint.
  assert (returns_record worlds i img) as Hi
    by (rewrite <- (Nat.add_0_r i); by apply Hret).
  rewrite io_bind_unfold.
  rewrite (image_to_ai_description_ready i img st Hready Hi).
  rewrite io_bind_unfold.
  assert (∀ st', show_preview C (record_at worlds i img) st'
                 = (Ok (), st')) as ->.
  { intros st'. unfold returns_record in Hi.
    destruct (generate_ai_optimized_description (worlds i) img [])
      as [r log'] eqn:Hgen.
    cbn [fst] in Hi. subst r. by eapply show_preview_returned. }
  rewrite io_bind_unfold, (IH (S i)); [|by left|].
  - rewrite imap_cons, Nat.add_0_r. unfold mret, io_ret. f_equal.
    + do 2 f_equal. apply imap_ext. intros j x _. simpl.
      by rewrite Nat.add_succ_r.
    + by destruct images.
  - intros j x Hx. rewrite Nat.add_succ_l, <- Nat.add_succ_r.
    by apply (Hret (S j)).
Qed.

(** Up to the simple format: the directory is made, every image is
    described, the full results are saved and reported. *)
Lemma process_folder_unfold (input_folder output_file : pystr)
    (images : list pystr) (st : process_state) :
  list_images FS input_folder = Ok images →
  images ≠ [] →
  makedirs FS (path_dirname FS output_file) = Ok () →
  captioner_loaded st = true ∨ load = Ok () →
  (∀ j img, images !! j = Some img → returns_record worlds j img) →
  dump FS output_file
    (VDict {[ "images" :=
                VList (VDict <$> imap (record_at worlds) images) ]})
  = Ok () →
  process_folder C FS worlds load input_folder output_file st
  = match for_each simple_entry (imap (record_at worlds) images) with
    | Ok simple_results =>
        write_json FS
          (str_replace output_file (py "ai_captions.json")
             (py "captions.json"))
          (VDict {[ "images" := VList simple_results ]})
          (ProcessState true
             (dirs st ++ [path_dirname FS output_file])
             (files st ++
              [(output_file,
                VDict {[ "images" :=
                  VList (VDict <$> imap (record_at worlds) images) ]})]))
    | Raise e =>
        (Raise e,
         ProcessState true
           (dirs st ++ [path_dirname FS output_file])
           (files st ++
            [(output_file,
              VDict {[ "images" :=
                VList (VDict <$> imap (record_at worlds) images) ]})]))
    end.
Proof.
  intros Himages Hne Hmk Hready Hret Hdump. unfold process_folder.
  rewrite bind_print_out, Hprint, bind_pure_io, Himages.
  destruct images as [|img images]; [done|].
  rewrite io_bind_unfold. unfold make_dirs at 1. rewrite Hmk.
  rewrite bind_print_out, Hprint, bind_print_out, Hprint.
  rewrite io_bind_unfold.
  rewrite (describe_all_records (length (img :: images)) (img :: images) 0);
    [|exact Hready|exact Hret].
  change (λ j img0, record_at worlds (0 + j) img0) with (record_at worlds).
  rewrite io_bind_unfold. unfold write_json at 1. rewrite Hdump.
  cbn [captioner_loaded dirs files].
  rewrite bind_print_out, Hprint, bind_print_out, Hprint. cbv zeta.
  rewrite bind_pure_io.
  destruct (for_each simple_entry _) as [simple_results|e]; [|done].
  clear Hdump. rewrite io_bind_unfold. unfold write_json.
  destruct (dump FS _ _) as [[]|e]; [|done].
  apply print_out_ok.
Qed.
End open_stdout.

(** The call for one image returns a record when the exceptions raised
    upstream are [Exception]s and the error line can be printed; the
    record is full or an error record. *)
Lemma record_at_cases (i : nat) (image_path : pystr) :
  (∀ e, upstream (worlds i) image_path = Raise e →
        exn_is_exception e = true) →
  (∀ line, print (worlds i) line = Ok ()) →
  returns_record worlds i image_path ∧
  ((∃ img standard detailed description topics,
      upstream (worlds i) image_path = Ok (img, standard, detailed) ∧
      (image_size img).2 ≠ 0%Z ∧
      record_at worlds i image_path
      = full_record (worlds i) image_path img standard detailed
          description topics) ∨
   (∃ e, record_at worlds i image_path
         = error_record (worlds i) image_path e)).
Proof.
  intros Hexc Hprint. unfold returns_record, record_at.
  destruct (generate_outcomes (worlds i) image_path [])
    as [(img & standard & detailed & description & topics & Hup & Hh & _
         & _ & Hok)
       | [(e & log'' & Herr)
         | [(e & He & Hup & _)
           | (caught & e & log'' & _ & _ & Hp & _)]]].
  - rewrite Hok. split; [done|]. left.
    by exists img, standard, detailed, description, topics.
  - rewrite Herr. split; [done|]. right. by exists e.
  - apply Hexc in Hup. congruence.
  - rewrite Hprint in Hp. discriminate.
Qed.
End batch.

(** X16: when the folder holds no image file, [process_folder] prints its
    first line, lists the folder, prints "No images found in the data
    folder." and returns: its outcome is that of the two prints and,
    whatever [os.makedirs] or the constructor of the captioner would do,
    no directory is made, the captioner is not constructed and no file is
    written. *)
Theorem X_process_folder_no_images `{U : Unicode} `{O : SetOrder}
    {tensor : Type} (C : Console) (FS : FileSystem)
    (worlds : nat → World tensor) (load : result unit)
    (input_folder output_file : pystr) (names : list pystr)
    (st : process_state) :
  listdir FS input_folder = Ok names →
  Forall (λ f, is_image_name f = false) names →
  process_folder C FS worlds load input_folder output_file st
  = (match print_line C (py "Processing images from: " ++ input_folder) with
     | Ok _ => print_line C (py "No images found in the data folder.")
     | Raise e => Raise e
     end, st).
Proof.
  intros Hls Hnone.
  assert (list_images FS input_folder = Ok []) as Himages.
  { unfold list_images. rewrite Hls.
    cbn [mbind result_bind mret result_ret]. f_equal. clear Hls.
    induction Hnone as [|f names Hf Hall IH]; [done|].
    cbn [List.filter]. rewrite Hf. exact IH. }
  unfold process_folder. rewrite bind_print_out.
  destruct (print_line C (py "Processing images from: " ++ input_folder))
    as [[]|e]; [|done].
  by rewrite bind_pure_io, Himages.
Qed.

(** X17: when the captioner cannot be constructed and the standard output
    takes every line, [process_folder] raises the exception of the
    constructor -- it is not turned into an error record -- after the
    output directory has been made and before anything is written; the
    global captioner stays unset. *)
Theorem X_process_folder_load_failure `{U : Unicode} `{O : SetOrder}
    {tensor : Type} (C : Console) (FS : FileSystem)
    (worlds : nat → World tensor) (e : exn)
    (input_folder output_file : pystr) (img : pystr)
    (images : list pystr) (st : process_state) :
  (∀ line, print_line C line = Ok ()) →
  list_images FS input_folder = Ok (img :: images) →
  makedirs FS (path_dirname FS output_file) = Ok () →
  captioner_loaded st = false →
  process_folder C FS worlds (Raise e) input_folder output_file st
  = (Raise e,
     ProcessState false (dirs st ++ [path_dirname FS output_file])
       (files st)).
Proof.
  intros Hprint Himages Hmk Hl. unfold process_folder.
  rewrite bind_print_out, Hprint, bind_pure_io, Himages.
  rewrite io_bind_unfold. unfold make_dirs at 1. rewrite Hmk, Hl.
  rewrite bind_print_out, Hprint, bind_print_out, Hprint.
  rewrite io_bind_unfold. cbn [describe_all]. cbv zeta.
  rewrite bind_print_out, Hprint.
  rewrite io_bind_unfold. unfold image_to_ai_description.
  rewrite io_bind_unfold. unfold get_captioner. reflexivity.
Qed.


Lemma replace_from_absent (s old new : pystr) :
  contains s old = false → replace_from s old new 0 = s.
Proof.
  induction s as [|c s IH]; [done|]. simpl.
  intros [Hs Hc]%orb_false_iff. rewrite Hs. f_equal. by apply IH.
Qed.

Lemma for_each_imap_ok {A B C} (f : B → result C) (g : nat → A → B)
    (h : nat → A → C) (l : list A) :
  (∀ j x, l !! j = Some x → f (g j x) = Ok (h j x)) →
  for_each f (imap g l) = Ok (imap h l).
Proof.
  revert g h. induction l as [|x l IH]; intros g h Hok; [done|].
  rewrite !imap_cons. cbn [for_each]. rewrite (Hok 0 x eq_refl).
  cbn [mbind result_bind]. rewrite (IH (g ∘ S) (h ∘ S)); [done|].
  intros j y Hy. by apply (Hok (S j)).
Qed.

Lemma generate_success `{U : Unicode} `{O : SetOrder} {tensor : Type}
    (W : World tensor) (image_path : pystr) (img : image)
    (standard detailed : pystr) (log : list call) :
  upstream W image_path = Ok (img, standard, detailed) →
  (image_size img).2 ≠ 0%Z →
  ∃ description topics,
    generate_ai_optimized_description W image_path log
    = (Ok (full_record W image_path img standard detailed description
             topics),
       log ++ pipeline_calls).
Proof.
  intros Hup Hh.
  destruct (pipeline_description_ok standard
              (extract_tags_from_caption standard)) as [description Hd].
  destruct (pipeline_topics_ok standard
              (extract_tags_from_caption standard)) as [topics Ht].
  exists description, topics.
  unfold generate_ai_optimized_description, try_except.
  rewrite (process_image_after_upstream W image_path img standard detailed
             description topics log Hup Hd Ht).
  apply Z.eqb_neq in Hh. by rewrite Hh.
Qed.


Lemma X_record_common_fields_witness :
  error_record missing_file_world (py "x.jpg")
    (Exn "FileNotFoundError" true (py "file not found")) !! "filename"
  = Some (VStr (basename missing_file_world (py "x.jpg"))).
Proof.
  refine (proj1 (X_record_common_fields (U := ascii_unicode)
                   (O := insertion_order) missing_file_world (py "x.jpg")
                   [] [] _ _)).
  reflexivity.
Defined.

Lemma X_process_folder_no_images_witness :
  process_folder (U := ascii_unicode) (O := insertion_order)
    open_console (sample_fs [py "notes.txt"; py "jpg"]) second_fails
    (Ok ()) (py "data") (py "outputs/ai_captions.json") fresh_process
  = (Ok (), fresh_process).
Proof.
  apply (X_process_folder_no_images (U := ascii_unicode)
           (O := insertion_order) open_console
           (sample_fs [py "notes.txt"; py "jpg"])
           second_fails (Ok ()) (py "data") (py "outputs/ai_captions.json")
           [py "notes.txt"; py "jpg"] fresh_process).
  - reflexivity.
  - repeat constructor.
Defined.

Lemma X_process_folder_load_failure_witness :
  process_folder (U := ascii_unicode) (O := insertion_order)
    open_console (sample_fs sample_names) second_fails
    (Raise (Exn "OSError" true (py "model not found")))
    (py "data") (py "outputs/ai_captions.json") fresh_process
  = (Raise (Exn "OSError" true (py "model not found")),
     ProcessState false
       (dirs fresh_process
        ++ [path_dirname (sample_fs sample_names)
              (py "outputs/ai_captions.json")])
       (files fresh_process)).
Proof.
  apply (X_process_folder_load_failure (U := ascii_unicode)
           (O := insertion_order) open_console (sample_fs sample_names)
           second_fails (Exn "OSError" true (py "model not found"))
           (py "data") (py "outputs/ai_captions.json")
           (py "data/a.jpg") [py "data/B.PNG"] fresh_process);
    reflexivity.
Defined.



Lemma sample_paths :
  posix_dirname (py "outputs/ai_captions.json") = py "outputs" ∧
  str_replace (py "outputs/ai_captions.json") (py "ai_captions.json")
    (py "captions.json") = py "outputs/captions.json" ∧
  posix_dirname (py "out.json") = [] ∧
  str_of_nat 12 = py "12" ∧ str_of_nat 0 = py "0".
Proof. by vm_compute. Qed.

(** X3: [create_ai_description] reads the keys setting, time_of_day,
    activity_level and social_context in that order; it returns a
    description when the context has all four and otherwise raises
    [KeyError] for the first one that is missing (so on the empty context
    of an error record it raises [KeyError('setting')]). *)
Theorem X_description_key_errors (caption : pystr)
    (context : gmap string pystr) (tags : list pystr) :
  match first_missing context description_keys with
  | Some key =>
      create_ai_description caption context tags = Raise (KeyError key)
  | None => ∃ description,
      create_ai_description caption context tags = Ok description
  end.
Proof.
  unfold first_missing, description_keys, create_ai_description,
    description_parts, getitem. cbn [List.find].
  destruct (context !! "setting") as [s|]; [|reflexivity].
  destruct (context !! "time_of_day") as [t|]; [|reflexivity].
  destruct (context !! "activity_level") as [a|]; [|reflexivity].
  destruct (context !! "social_context") as [c|]; [|reflexivity].
  cbn. eexists. reflexivity.
Qed.

(** X6: [generate_related_topics] reads the keys setting and activity_level
    in that order; it returns a list when the context has both and
    otherwise raises [KeyError] for the first one that is missing. *)
Theorem X_topics_key_errors `{O : SetOrder} (tags : list pystr)
    (context : gmap string pystr) :
  match first_missing context topic_keys with
  | Some key => generate_related_topics tags context = Raise (KeyError key)
  | None => ∃ topics, generate_related_topics tags context = Ok topics
  end.
Proof.
  unfold first_missing, topic_keys, generate_related_topics, getitem.
  cbn [List.find].
  destruct (context !! "setting") as [s|]; [|reflexivity].
  destruct (context !! "activity_level") as [a|]; [|reflexivity].
  cbn. eexists. reflexivity.
Qed.

(** X1: the extracted tags are exactly the vocabulary terms that occur in
    the lower-cased caption between two word boundaries: every such
    occurrence yields its term, and nothing else is returned. *)
Theorem X_tags_are_word_bounded_terms `{U : Unicode} `{O : SetOrder}
    (caption t : pystr) :
  t ∈ extract_tags_from_caption caption ↔
  t ∈ vocabulary ∧ word_bounded_in t (str_lower caption).
Proof.
  unfold extract_tags_from_caption. rewrite list_of_set_elem. split.
  - apply collect_tags_sound.
  - intros [Hv Hb]. by apply collect_tags_complete.
Qed.

